(** * MMA Coach Assistant: the request/response adapter of
      [services/geminiService.ts]

    The development embeds the two functions of the service module,
    [fileToGenerativePart] (the Encoder) and [analyzeFights] (the Analysis
    Client), together with the parts of the browser platform they call
    ([FileReader.readAsDataURL], [String.prototype.split] and [trim],
    [JSON.parse], [console.error]) and the provider call
    [ai.models.generateContent], which is an input of the model. *)

From Stdlib Require Import List NArith ZArith Bool Lia Zify Ascii String.
From Stdlib Require Strings.Byte.
Import ListNotations.

Set Warnings "-register-all".
Set Warnings "-automation".
Set Warnings "-default".

(* ================================================================== *)
(** * JavaScript strings *)
(* ================================================================== *)

(** A JavaScript string is a finite sequence of UTF-16 code units.  String
    literals of the source are written [js "..."]. *)
Module JsString.

Definition code_unit := N.
Definition jsstring := list code_unit.

Definition ch (a : ascii) : code_unit := N_of_ascii a.

Definition js (s : string) : jsstring := map ch (list_ascii_of_string s).

(** The character [U+0022], which a string literal cannot hold directly. *)
Definition dquote : code_unit := 34%N.

(** [js_quoted s] is [s] between two double quotes. *)
Definition js_quoted (s : string) : jsstring := dquote :: js s ++ [dquote].

Definition eqb (a b : jsstring) : bool :=
  if list_eq_dec N.eq_dec a b then true else false.

(** [s.split(sep)] for a separator of one code unit: the maximal pieces of [s]
    between occurrences of [sep]; never the empty array. *)
Fixpoint split (sep : code_unit) (s : jsstring) : list jsstring :=
  match s with
  | [] => [[]]
  | c :: r =>
      if N.eqb c sep then [] :: split sep r
      else match split sep r with
           | [] => [[c]]
           | piece :: pieces => (c :: piece) :: pieces
           end
  end.

(** The code units [String.prototype.trim] strips: WhiteSpace and
    LineTerminator of ECMA-262. *)
Definition is_trim_space (c : code_unit) : bool :=
  existsb (N.eqb c)
    [9; 10; 11; 12; 13; 32; 160; 5760; 8232; 8233; 8239; 8287; 12288; 65279]%N
  || (N.leb 8192 c && N.leb c 8202).

Fixpoint trimStart (s : jsstring) : jsstring :=
  match s with
  | c :: r => if is_trim_space c then trimStart r else s
  | [] => []
  end.

Definition trimEnd (s : jsstring) : jsstring := rev (trimStart (rev s)).

Definition trim (s : jsstring) : jsstring := trimEnd (trimStart s).

(** [sub] occurs verbatim in [s], as a contiguous run of code units. *)
Definition occurs_in (sub s : jsstring) : Prop :=
  exists before after, s = before ++ sub ++ after.

Fixpoint starts_with (p s : jsstring) : bool :=
  match p, s with
  | [], _ => true
  | a :: p', b :: s' => N.eqb a b && starts_with p' s'
  | _ :: _, [] => false
  end.

(** [s.includes(sub)]. *)
Fixpoint includes (sub s : jsstring) : bool :=
  starts_with sub s ||
  match s with
  | [] => false
  | _ :: r => includes sub r
  end.

End JsString.
Import JsString.

(* ================================================================== *)
(** * Base64 (RFC 4648), the encoding [readAsDataURL] applies *)
(* ================================================================== *)

Module Base64.

Definition alphabet : jsstring :=
  js "ABCDEFGHIJKLMNOPQRSTUVWXYZabcdefghijklmnopqrstuvwxyz0123456789+/".

Definition pad : code_unit := ch "=".

Definition sextet_char (i : N) : code_unit := nth (N.to_nat i) alphabet 0%N.

Definition char_sextet (c : code_unit) : option N :=
  if (N.leb (ch "A") c && N.leb c (ch "Z"))%bool then Some (c - ch "A")%N
  else if (N.leb (ch "a") c && N.leb c (ch "z"))%bool then Some (c - ch "a" + 26)%N
  else if (N.leb (ch "0") c && N.leb c (ch "9"))%bool then Some (c - ch "0" + 52)%N
  else if N.eqb c (ch "+") then Some 62%N
  else if N.eqb c (ch "/") then Some 63%N
  else None.

(** Three octets are regrouped into four sextets; one or two trailing octets
    give two or three characters and padding. *)
Fixpoint encode (bs : list Byte.byte) : jsstring :=
  match bs with
  | [] => []
  | [a] =>
      let x := Byte.to_N a in
      [sextet_char (x / 4); sextet_char (x mod 4 * 16); pad; pad]
  | [a; b] =>
      let x := Byte.to_N a in
      let y := Byte.to_N b in
      [sextet_char (x / 4); sextet_char (x mod 4 * 16 + y / 16);
       sextet_char (y mod 16 * 4); pad]
  | a :: b :: c :: rest =>
      let x := Byte.to_N a in
      let y := Byte.to_N b in
      let z := Byte.to_N c in
      sextet_char (x / 4) :: sextet_char (x mod 4 * 16 + y / 16)
      :: sextet_char (y mod 16 * 4 + z / 64) :: sextet_char (z mod 64)
      :: encode rest
  end%N.

Definition octet1 (s1 s2 : N) : option Byte.byte := Byte.of_N (s1 * 4 + s2 / 16).
Definition octet2 (s2 s3 : N) : option Byte.byte := Byte.of_N (s2 mod 16 * 16 + s3 / 4).
Definition octet3 (s3 s4 : N) : option Byte.byte := Byte.of_N (s3 mod 4 * 64 + s4).

Definition cons_opt {A} (x : option A) (l : option (list A)) : option (list A) :=
  match x, l with
  | Some a, Some r => Some (a :: r)
  | _, _ => None
  end.

(** Decoding fails ([None]) on a character outside the alphabet, on misplaced
    padding and on a length that is not a multiple of four. *)
Fixpoint decode (s : jsstring) : option (list Byte.byte) :=
  match s with
  | [] => Some []
  | c1 :: c2 :: c3 :: c4 :: rest =>
      match char_sextet c1, char_sextet c2 with
      | Some s1, Some s2 =>
          if N.eqb c3 pad then
            if N.eqb c4 pad then
              match rest with
              | [] => cons_opt (octet1 s1 s2) (Some [])
              | _ :: _ => None
              end
            else None
          else
            match char_sextet c3 with
            | Some s3 =>
                if N.eqb c4 pad then
                  match rest with
                  | [] => cons_opt (octet1 s1 s2) (cons_opt (octet2 s2 s3) (Some []))
                  | _ :: _ => None
                  end
                else
                  match char_sextet c4 with
                  | Some s4 =>
                      cons_opt (octet1 s1 s2)
                        (cons_opt (octet2 s2 s3)
                           (cons_opt (octet3 s3 s4) (decode rest)))
                  | None => None
                  end
            | None => None
            end
      | _, _ => None
      end
  | _ => None
  end.

End Base64.

(* ================================================================== *)
(** * Values thrown, promises and the effect trace *)
(* ================================================================== *)

Module Js.

(** A DOM event object, such as the [ProgressEvent] a [FileReader] hands to
    its [onerror] handler. *)
Record DomEvent := { event_type : jsstring; event_loaded : N }.

(** What a [throw] or a promise rejection can carry here: an [Error] instance
    (its [name] and [message]) or an event object. *)
Inductive JsThrown :=
| ErrorObject (name message : jsstring)
| EventValue (ev : DomEvent).

(** [new Error(message)]. *)
Definition new_Error (message : jsstring) : JsThrown :=
  ErrorObject (js "Error") message.

(** A promise settles once: [resolve] and [reject] act on a pending promise
    only. *)
Inductive Promise (A : Type) :=
| Pending
| Fulfilled (value : A)
| Rejected (reason : JsThrown).
Arguments Pending {A}.
Arguments Fulfilled {A} value.
Arguments Rejected {A} reason.

Definition resolve {A} (value : A) (p : Promise A) : Promise A :=
  match p with
  | Pending => Fulfilled value
  | _ => p
  end.

Definition reject {A} (reason : JsThrown) (p : Promise A) : Promise A :=
  match p with
  | Pending => Rejected reason
  | _ => p
  end.

(** How the evaluation of an async function body ends: with a value, with a
    thrown value, or suspended on a promise that never settles. *)
Inductive Completion (A : Type) :=
| Normal (value : A)
| Throw (thrown : JsThrown)
| Suspended.
Arguments Normal {A} value.
Arguments Throw {A} thrown.
Arguments Suspended {A}.

End Js.
Import Js.

(* ================================================================== *)
(** * JSON values and [JSON.parse] (ECMA-404) *)
(* ================================================================== *)

Module Json.

(** A number keeps the decimal its literal denotes,
    [(-1)^negative * mantissa * 10^exp10]; the rounding to a double is not
    modelled. *)
Inductive JSValue :=
| JNull
| JBool (b : bool)
| JNumber (negative : bool) (mantissa : N) (exp10 : Z)
| JString (s : jsstring)
| JArray (elements : list JSValue)
| JObject (members : list (jsstring * JSValue)).

Definition is_ws (c : code_unit) : bool :=
  N.eqb c 32 || N.eqb c 9 || N.eqb c 10 || N.eqb c 13.

Fixpoint skip_ws (s : jsstring) : jsstring :=
  match s with
  | c :: r => if is_ws c then skip_ws r else s
  | [] => []
  end.

Definition is_digit (c : code_unit) : bool :=
  N.leb (ch "0") c && N.leb c (ch "9").

(** The longest prefix of digits, as digit values, and what follows it. *)
Fixpoint take_digits (s : jsstring) : list N * jsstring :=
  match s with
  | c :: r =>
      if is_digit c
      then let (ds, rest) := take_digits r in ((c - ch "0")%N :: ds, rest)
      else ([], s)
  | [] => ([], [])
  end.

Definition digits_value (ds : list N) : N :=
  fold_left (fun acc d => (acc * 10 + d)%N) ds 0%N.

Definition hex_value (c : code_unit) : option N :=
  if is_digit c then Some (c - ch "0")%N
  else if N.leb (ch "a") c && N.leb c (ch "f") then Some (c - ch "a" + 10)%N
  else if N.leb (ch "A") c && N.leb c (ch "F") then Some (c - ch "A" + 10)%N
  else None.

Definition hex4 (a b c d : code_unit) : option code_unit :=
  match hex_value a, hex_value b, hex_value c, hex_value d with
  | Some x, Some y, Some z, Some w => Some (((x * 16 + y) * 16 + z) * 16 + w)%N
  | _, _, _, _ => None
  end.

Definition escape_char (e : code_unit) : option code_unit :=
  if N.eqb e dquote then Some dquote
  else if N.eqb e 92 then Some 92%N
  else if N.eqb e (ch "/") then Some (ch "/")
  else if N.eqb e (ch "b") then Some 8%N
  else if N.eqb e (ch "f") then Some 12%N
  else if N.eqb e (ch "n") then Some 10%N
  else if N.eqb e (ch "r") then Some 13%N
  else if N.eqb e (ch "t") then Some 9%N
  else None.

Definition prepend (c : code_unit) (r : option (jsstring * jsstring))
  : option (jsstring * jsstring) :=
  match r with
  | Some (str, rest) => Some (c :: str, rest)
  | None => None
  end.

(** The characters of a string after its opening quote, up to and including
    the closing quote: the string's code units and the rest of the input. *)
Fixpoint parse_chars (s : jsstring) : option (jsstring * jsstring) :=
  match s with
  | [] => None
  | c :: r =>
      if N.eqb c dquote then Some ([], r)
      else if N.eqb c 92 then
        match r with
        | [] => None
        | e :: r' =>
            if N.eqb e (ch "u") then
              match r' with
              | h1 :: h2 :: h3 :: h4 :: r'' =>
                  match hex4 h1 h2 h3 h4 with
                  | Some u => prepend u (parse_chars r'')
                  | None => None
                  end
              | _ => None
              end
            else
              match escape_char e with
              | Some u => prepend u (parse_chars r')
              | None => None
              end
        end
      else if N.ltb c 32 then None
      else prepend c (parse_chars r)
  end.

(** An optional minus sign. *)
Definition parse_sign (s : jsstring) : bool * jsstring :=
  match s with
  | c :: r => if N.eqb c (ch "-") then (true, r) else (false, s)
  | [] => (false, s)
  end.

(** An optional fraction: a point and one or more digits. *)
Definition parse_fraction (s : jsstring) : option (list N * jsstring) :=
  match s with
  | c :: r =>
      if N.eqb c (ch ".")
      then match take_digits r with
           | ([], _) => None
           | (ds, rest) => Some (ds, rest)
           end
      else Some ([], s)
  | [] => Some ([], s)
  end.

(** The optional sign of an exponent. *)
Definition parse_exponent_sign (s : jsstring) : bool * jsstring :=
  match s with
  | sg :: r =>
      if N.eqb sg (ch "-") then (true, r)
      else if N.eqb sg (ch "+") then (false, r)
      else (false, s)
  | [] => (false, s)
  end.

(** An optional exponent: [e] or [E], an optional sign and one or more
    digits. *)
Definition parse_exponent (s : jsstring) : option (Z * jsstring) :=
  match s with
  | c :: r =>
      if N.eqb c (ch "e") || N.eqb c (ch "E") then
        let (eneg, r1) := parse_exponent_sign r in
        match take_digits r1 with
        | ([], _) => None
        | (ds, rest) =>
            let e := Z.of_N (digits_value ds) in
            Some (if eneg then (- e)%Z else e, rest)
        end
      else Some (0%Z, s)
  | [] => Some (0%Z, s)
  end.

(** A number literal: an optional minus sign, an integer part without a
    leading zero unless it is the single digit zero, an optional fraction and
    an optional exponent. *)
Definition parse_number (s : jsstring) : option (JSValue * jsstring) :=
  let (negative, s1) := parse_sign s in
  let (int_ds, s2) := take_digits s1 in
  match int_ds with
  | [] => None
  | d :: more =>
      if N.eqb d 0 && negb (Nat.eqb (List.length more) 0) then None
      else
        match parse_fraction s2 with
        | None => None
        | Some (frac_ds, s3) =>
            match parse_exponent s3 with
            | None => None
            | Some (e, s4) =>
                Some (JNumber negative (digits_value (int_ds ++ frac_ds))
                        (e - Z.of_nat (List.length frac_ds))%Z, s4)
            end
        end
  end.

(** Defining a property on the object under construction: a repeated key
    keeps its place and takes the later value. *)
Fixpoint set_member (key : jsstring) (v : JSValue)
    (members : list (jsstring * JSValue)) : list (jsstring * JSValue) :=
  match members with
  | [] => [(key, v)]
  | (k, w) :: rest =>
      if JsString.eqb k key then (k, v) :: rest
      else (k, w) :: set_member key v rest
  end.

(** Recursive descent, on a fuel that bounds the nesting of calls. *)
Fixpoint parse_value (fuel : nat) (s : jsstring) {struct fuel}
  : option (JSValue * jsstring) :=
  match fuel with
  | O => None
  | S fuel' =>
      match skip_ws s with
      | [] => None
      | c :: r =>
          if N.eqb c (ch "{") then
            match skip_ws r with
            | c' :: r' =>
                if N.eqb c' (ch "}") then Some (JObject [], r')
                else parse_members fuel' r []
            | [] => None
            end
          else if N.eqb c (ch "[") then
            match skip_ws r with
            | c' :: r' =>
                if N.eqb c' (ch "]") then Some (JArray [], r')
                else parse_elements fuel' r []
            | [] => None
            end
          else if N.eqb c dquote then
            match parse_chars r with
            | Some (str, rest) => Some (JString str, rest)
            | None => None
            end
          else if starts_with (js "true") (c :: r)
          then Some (JBool true, skipn 4 (c :: r))
          else if starts_with (js "false") (c :: r)
          then Some (JBool false, skipn 5 (c :: r))
          else if starts_with (js "null") (c :: r)
          then Some (JNull, skipn 4 (c :: r))
          else parse_number (c :: r)
      end
  end
with parse_members (fuel : nat) (s : jsstring)
    (acc : list (jsstring * JSValue)) {struct fuel}
  : option (JSValue * jsstring) :=
  match fuel with
  | O => None
  | S fuel' =>
      match skip_ws s with
      | [] => None
      | c :: r =>
          if N.eqb c dquote then
            match parse_chars r with
            | Some (key, r1) =>
                match skip_ws r1 with
                | [] => None
                | c1 :: r2 =>
                    if N.eqb c1 (ch ":") then
                      match parse_value fuel' r2 with
                      | Some (v, r3) =>
                          let acc' := set_member key v acc in
                          match skip_ws r3 with
                          | [] => None
                          | c3 :: r4 =>
                              if N.eqb c3 (ch ",") then parse_members fuel' r4 acc'
                              else if N.eqb c3 (ch "}") then Some (JObject acc', r4)
                              else None
                          end
                      | None => None
                      end
                    else None
                end
            | None => None
            end
          else None
      end
  end
with parse_elements (fuel : nat) (s : jsstring) (acc : list JSValue)
    {struct fuel} : option (JSValue * jsstring) :=
  match fuel with
  | O => None
  | S fuel' =>
      match parse_value fuel' s with
      | Some (v, r1) =>
          let acc' := acc ++ [v] in
          match skip_ws r1 with
          | [] => None
          | c :: r2 =>
              if N.eqb c (ch ",") then parse_elements fuel' r2 acc'
              else if N.eqb c (ch "]") then Some (JArray acc', r2)
              else None
          end
      | None => None
      end
  end.

(** [JSON.parse(text)]: [None] stands for the [SyntaxError] it throws.  The
    fuel given is never exhausted: see [parse_value_enough_fuel]. *)
Definition JSON_parse (text : jsstring) : option JSValue :=
  match parse_value (2 * List.length text + 2) text with
  | Some (v, rest) =>
      match skip_ws rest with
      | [] => Some v
      | _ :: _ => None
      end
  | None => None
  end.

(** Property read [obj.key]: [None] for [undefined]. *)
Fixpoint get_member (key : jsstring) (members : list (jsstring * JSValue))
  : option JSValue :=
  match members with
  | [] => None
  | (k, v) :: rest => if JsString.eqb k key then Some v else get_member key rest
  end.

Definition get (key : string) (v : JSValue) : option JSValue :=
  match v with
  | JObject members => get_member (js key) members
  | _ => None
  end.

End Json.
Import Json.

(* ================================================================== *)
(** * The File API: [File] and [FileReader.readAsDataURL] *)
(* ================================================================== *)

Module FileApi.

(** A [File]: its declared media type and its content. *)
Record File := { type : jsstring; bytes : list Byte.byte }.

(** [reader.result] is typed [string | ArrayBuffer | null]. *)
Inductive ReaderResult :=
| ResultString (s : jsstring)
| ResultArrayBuffer (buffer : list Byte.byte)
| ResultNull.

(** What a read operation leaves behind when it ends: the event fired at
    [error], when the read failed, and the value of [reader.result].  The
    [loadend] event is fired last in both cases. *)
Record ReadOutcome := { error : option DomEvent; result : ReaderResult }.

(** The data URL of a file: its media type, the base64 marker and the base64
    encoding of its bytes. *)
Definition data_url (f : File) : jsstring :=
  js "data:" ++ type f ++ js ";base64," ++ Base64.encode (bytes f).

(** The outcome of a read that succeeds, and of one that fails with [ev]. *)
Definition read_ok (f : File) : ReadOutcome :=
  {| error := None; result := ResultString (data_url f) |}.

Definition read_failed (ev : DomEvent) : ReadOutcome :=
  {| error := Some ev; result := ResultNull |}.

End FileApi.
Import FileApi.

(* ================================================================== *)
(** * The provider SDK: schema values, request and response *)
(* ================================================================== *)

Module GenAI.

(** The [Type] enumeration of the SDK. *)
Inductive SchemaType := STRING | NUMBER | INTEGER | BOOLEAN | ARRAY | OBJECT.

(** A schema object, with the keys the service writes; an absent key is
    [None]. *)
Inductive Schema := mkSchema {
  type : SchemaType;
  description : option jsstring;
  properties : option (list (jsstring * Schema));
  items : option Schema }.

Record InlineData := { mimeType : jsstring; data : option jsstring }.

(** A content part: [{ text }] or [{ inlineData }].  The [data] of an inline
    part is [None] when the run-time value is [undefined]. *)
Inductive Part :=
| TextPart (text : jsstring)
| InlinePart (inlineData : InlineData).

Record Content := { parts : list Part }.

Record GenerateContentConfig := {
  responseMimeType : jsstring;
  responseSchema : Schema }.

Record GenerateContentParameters := {
  model : jsstring;
  contents : Content;
  config : GenerateContentConfig }.

(** The response; the service reads its [text] as a string. *)
Record GenerateContentResponse := { text : jsstring }.

(** The client object [new GoogleGenAI({ apiKey })]. *)
Record GoogleGenAI := { apiKey : option jsstring }.

End GenAI.
Import GenAI.

(* ================================================================== *)
(** * The platform and the monad of async function bodies *)
(* ================================================================== *)

Module Runtime.

(** Everything outside the module that a call depends on: the environment,
    how each file read ends, the promise each provider call returns and the
    message the engine gives the [SyntaxError] of [JSON.parse]. *)
Record Platform := {
  env_API_KEY : option jsstring;
  readAsDataURL : File -> ReadOutcome;
  generateContent :
    GoogleGenAI -> GenerateContentParameters -> Promise GenerateContentResponse;
  syntaxErrorMessage : jsstring -> jsstring }.

Inductive LogArg :=
| LogString (s : jsstring)
| LogThrown (e : JsThrown).

(** The observable effects of a call, in the order they happen. *)
Inductive Effect :=
| FileRead (file : File)
| ProviderCall (ai : GoogleGenAI) (params : GenerateContentParameters)
| ConsoleError (args : list LogArg).

Definition Trace := list Effect.

Definition Async (A : Type) := Trace -> Completion A * Trace.

Definition ret {A} (a : A) : Async A := fun tr => (Normal a, tr).

Definition throw {A} (e : JsThrown) : Async A := fun tr => (Throw e, tr).

Definition bind {A B} (m : Async A) (k : A -> Async B) : Async B :=
  fun tr =>
    match m tr with
    | (Normal a, tr') => k a tr'
    | (Throw e, tr') => (Throw e, tr')
    | (Suspended, tr') => (Suspended, tr')
    end.

Definition emit (e : Effect) : Async unit := fun tr => (Normal tt, tr ++ [e]).

(** [await p]: the value of a fulfilled promise, the reason of a rejected one
    thrown, and no continuation for one that stays pending. *)
Definition await {A} (p : Promise A) : Async A :=
  fun tr =>
    match p with
    | Fulfilled v => (Normal v, tr)
    | Rejected e => (Throw e, tr)
    | Pending => (Suspended, tr)
    end.

(** [try { body } catch (e) { handler }]. *)
Definition try_catch {A} (body : Async A) (handler : JsThrown -> Async A)
  : Async A :=
  fun tr =>
    match body tr with
    | (Throw e, tr') => handler e tr'
    | other => other
    end.

(** A call from the outside starts with an empty trace. *)
Definition run {A} (m : Async A) : Completion A * Trace := m [].

Definition outcome {A} (m : Async A) : Completion A := fst (run m).
Definition effects {A} (m : Async A) : Trace := snd (run m).

(** The provider calls of a trace. *)
Fixpoint provider_calls (tr : Trace) : list GenerateContentParameters :=
  match tr with
  | [] => []
  | ProviderCall _ params :: r => params :: provider_calls r
  | _ :: r => provider_calls r
  end.

End Runtime.
Import Runtime.

Declare Scope async_scope.
Delimit Scope async_scope with async.
Notation "x <- m ;; k" := (bind m (fun x => k))
  (at level 61, m at next level, right associativity) : async_scope.
Notation "m ;;; k" := (bind m (fun _ => k))
  (at level 61, right associativity) : async_scope.

(* ================================================================== *)
(** * [services/geminiService.ts] *)
(* ================================================================== *)

Module GeminiService.

Open Scope async_scope.

(** ** [fileToGenerativePart] *)

(** The handler [reader.onloadend] of the promise executor. *)
Definition onloadend (reader_result : ReaderResult)
    (p : Promise (option jsstring)) : Promise (option jsstring) :=
  match reader_result with
  | ResultString s => resolve (nth_error (split (ch ",") s) 1) p
  | _ => reject (new_Error (js "Failed to read file as base64 string.")) p
  end.

(** The handler [reader.onerror]. *)
Definition onerror (error : DomEvent)
    (p : Promise (option jsstring)) : Promise (option jsstring) :=
  reject (EventValue error) p.

(** The promise [new Promise<string>(...)] once [reader.readAsDataURL(file)]
    has ended: the [error] event, if any, reaches its handler before
    [loadend] reaches the other one. *)
Definition read_promise (o : ReadOutcome) : Promise (option jsstring) :=
  let p := Pending in
  let p := match FileApi.error o with
           | Some ev => onerror ev p
           | None => p
           end in
  onloadend (result o) p.

Definition fileToGenerativePart (w : Platform) (file : File) : Async Part :=
  base64EncodedData <-
    (emit (FileRead file) ;;; await (read_promise (readAsDataURL w file))) ;;
  ret (InlinePart {| mimeType := FileApi.type file;
                     data := base64EncodedData |}).

(** ** [analyzeFights] *)

Definition prompt (fighterName opponentName weightClass : jsstring) : jsstring :=
  js "
    You are an expert MMA analyst and coach. Analyze the two fighters based on the provided videos.

    Fighter 1: " ++ fighterName ++ js "
    Fighter 2: " ++ opponentName ++ js "
    Weight Class: " ++ weightClass ++ js "

    Please provide a detailed analysis covering:
    1. For " ++ fighterName ++ js ": A list of strengths, a list of weaknesses, a list of fighting patterns and habits with excruciating details and a description of their fighting style.
    2. For " ++ opponentName ++ js ": A list of strengths, a list of weaknesses, a list of fighting patterns and habits with excruciating details and a description of their fighting style.
    3. A head-to-head prediction with a confidence score (from 0 to 100).
    4. A recommended game plan for " ++ fighterName ++ js " to defeat " ++ opponentName ++ js ", including an overall strategy, a list of key tactics, and a list of specific drills to practice.

    Return the analysis in a structured JSON format according to the provided schema.
    ".

(** [{ type: Type.STRING, description }] *)
Definition string_schema (description : string) : Schema :=
  {| type := STRING; description := Some (js description);
     properties := None; items := None |}.

(** [{ type: Type.NUMBER, description }] *)
Definition number_schema (description : string) : Schema :=
  {| type := NUMBER; description := Some (js description);
     properties := None; items := None |}.

(** [{ type: Type.ARRAY, items: { type: Type.STRING }, description }] *)
Definition string_array_schema (description : string) : Schema :=
  {| type := ARRAY;
     items := Some {| type := STRING; description := None;
                      properties := None; items := None |};
     description := Some (js description);
     properties := None |}.

(** [{ type: Type.OBJECT, description, properties }] *)
Definition object_schema (description : option jsstring)
    (properties : list (jsstring * Schema)) : Schema :=
  {| type := OBJECT; description := description;
     properties := Some properties; items := None |}.

Definition responseSchema (fighterName opponentName : jsstring) : Schema :=
  object_schema None
    [ (js "fighterAnalysis",
       object_schema (Some (js "Analysis for " ++ fighterName ++ js "."))
         [ (js "strengths", string_array_schema "List of strengths.");
           (js "fightingPattern", string_array_schema "List of fighting patterns.");
           (js "fightingHabits", string_array_schema "List of fighting habits.");
           (js "weaknesses", string_array_schema "List of weaknesses.");
           (js "fightingStyle", string_schema "Description of fighting style.") ]);
      (js "opponentAnalysis",
       object_schema (Some (js "Analysis for " ++ opponentName ++ js "."))
         [ (js "strengths", string_array_schema "List of strengths.");
           (js "fightingPattern", string_array_schema "List of fighting patterns.");
           (js "fightingHabits", string_array_schema "List of fighting habits.");
           (js "weaknesses", string_array_schema "List of weaknesses.");
           (js "fightingStyle", string_schema "Description of fighting style.") ]);
      (js "headToHead",
       object_schema (Some (js "Head-to-head comparison and prediction."))
         [ (js "prediction", string_schema "Prediction for the fight outcome.");
           (js "confidence",
            number_schema "Confidence score in the prediction, from 0 to 100.") ]);
      (js "recommendedGamePlan",
       object_schema (Some (js "Recommended game plan for " ++ fighterName ++ js "."))
         [ (js "strategy", string_schema "Overall strategy for the fighter.");
           (js "keyTactics", string_array_schema "Specific tactics to employ.");
           (js "drills", string_array_schema "Drills to practice for preparation.") ]) ].

(** The request [analyzeFights] hands to [ai.models.generateContent]. *)
Definition request (fighterName opponentName weightClass : jsstring)
    (fighterVideoPart opponentVideoPart : Part) : GenerateContentParameters :=
  {| model := js "gemini-2.5-flash";
     contents :=
       {| parts :=
            [ TextPart (prompt fighterName opponentName weightClass);
              TextPart (js "

Fighter Video (" ++ fighterName ++ js "):");
              fighterVideoPart;
              TextPart (js "

Opponent Video (" ++ opponentName ++ js "):");
              opponentVideoPart ] |};
     config :=
       {| responseMimeType := js "application/json";
          GenAI.responseSchema := responseSchema fighterName opponentName |} |}.

(** [JSON.parse(text)], which returns the value or throws a [SyntaxError]. *)
Definition JSON_parse_or_throw (w : Platform) (text : jsstring) : Async JSValue :=
  match JSON_parse text with
  | Some v => ret v
  | None => throw (ErrorObject (js "SyntaxError") (syntaxErrorMessage w text))
  end.

Definition analyzeFights (w : Platform)
    (fighterName opponentName weightClass : jsstring)
    (fighterVideo opponentVideo : File) : Async JSValue :=
  let ai := {| apiKey := env_API_KEY w |} in
  fighterVideoPart <- fileToGenerativePart w fighterVideo ;;
  opponentVideoPart <- fileToGenerativePart w opponentVideo ;;
  let params :=
    request fighterName opponentName weightClass
      fighterVideoPart opponentVideoPart in
  response <-
    (emit (ProviderCall ai params) ;;; await (generateContent w ai params)) ;;
  let jsonString := trim (text response) in
  try_catch
    (parsedResult <- JSON_parse_or_throw w jsonString ;;
     ret parsedResult)
    (fun e =>
       emit (ConsoleError
               [ LogString (js "Failed to parse JSON response from Gemini:");
                 LogString jsonString;
                 LogThrown e ]) ;;;
       throw (new_Error (js "The analysis result from the AI was not in the expected format. Please try again."))).

End GeminiService.
Import GeminiService.

(* ================================================================== *)
(** * The vocabulary of the specification *)
(* ================================================================== *)

Module Spec.

(** The Encoder's result for a file, seen from a caller's [await]. *)
Definition encoded (w : Platform) (file : File) : Completion Part :=
  outcome (fileToGenerativePart w file).

(** [EncodingError]: the two values the Encoder's promise is rejected with,
    the event of a failed read and the error raised for a result that is not
    text. *)
Inductive EncodingError : JsThrown -> Prop :=
| ReadFailed (ev : DomEvent) : EncodingError (EventValue ev)
| NotText :
    EncodingError (new_Error (js "Failed to read file as base64 string.")).

(** [AnalysisFormatError]: the error carrying the fixed user-facing
    message. *)
Definition AnalysisFormatError : JsThrown :=
  new_Error (js "The analysis result from the AI was not in the expected format. Please try again.").

(** The expected encoded text form of a read result: text made of a header
    and, after the single comma, valid base64. *)
Definition is_base64_text (r : ReaderResult) : bool :=
  match r with
  | ResultString s =>
      match split (ch ",") s with
      | [_; payload] =>
          match Base64.decode payload with
          | Some _ => true
          | None => false
          end
      | _ => false
      end
  | _ => false
  end.

(** A well-formed Media Payload for [file]: an inline part tagged with the
    file's declared type whose data is present and is valid base64. *)
Definition well_formed_payload (file : File) (p : Part) : Prop :=
  exists d bs,
    p = InlinePart {| mimeType := FileApi.type file; data := Some d |} /\
    Base64.decode d = Some bs.

(** The round-trip law of the Encoder for [file]. *)
Definition round_trip (w : Platform) (file : File) : Prop :=
  exists d,
    encoded w file
    = Normal (InlinePart {| mimeType := FileApi.type file; data := Some d |}) /\
    Base64.decode d = Some (bytes file).

Definition is_string (v : JSValue) : bool :=
  match v with JString _ => true | _ => false end.

Definition is_number (v : JSValue) : bool :=
  match v with JNumber _ _ _ => true | _ => false end.

Definition is_string_array (v : JSValue) : bool :=
  match v with JArray l => forallb is_string l | _ => false end.

(** [v] has the property [key], and its value passes [check]. *)
Definition has (key : string) (check : JSValue -> bool) (v : JSValue) : bool :=
  match get key v with
  | Some x => check x
  | None => false
  end.

(** Modelled from the spec: [types.ts], which declares the result types, is
    not among the source files.  A Fighter Profile is
    [{ fightingStyle: string, strengths: [string], weaknesses: [string],
       fightingHabits: [string], fightingPattern: [string] }]. *)
Definition conforms_FighterProfile (v : JSValue) : bool :=
  has "fightingStyle" is_string v && has "strengths" is_string_array v
  && has "weaknesses" is_string_array v && has "fightingHabits" is_string_array v
  && has "fightingPattern" is_string_array v.

(** Modelled from the spec: [types.ts] is not among the source files.  A
    Head-to-Head is [{ prediction: string, confidence: number }]. *)
Definition conforms_HeadToHead (v : JSValue) : bool :=
  has "prediction" is_string v && has "confidence" is_number v.

(** Modelled from the spec: [types.ts] is not among the source files.  A Game
    Plan is [{ strategy: string, keyTactics: [string], drills: [string] }]. *)
Definition conforms_GamePlan (v : JSValue) : bool :=
  has "strategy" is_string v && has "keyTactics" is_string_array v
  && has "drills" is_string_array v.

(** Modelled from the spec: [types.ts], which declares [AnalysisResult], is
    not among the source files.  An Analysis Result aggregates the four
    substructures: two Fighter Profiles, the Head-to-Head and the Game Plan,
    under the property names the results view and the schema use. *)
Definition conforms_AnalysisResult (v : JSValue) : bool :=
  has "fighterAnalysis" conforms_FighterProfile v
  && has "opponentAnalysis" conforms_FighterProfile v
  && has "headToHead" conforms_HeadToHead v
  && has "recommendedGamePlan" conforms_GamePlan v.

(** The structure a schema declares, without its descriptions. *)
Inductive Shape :=
| ShString
| ShNumber
| ShInteger
| ShBoolean
| ShArrayOf (item : Shape)
| ShObject (fields : list (jsstring * Shape)).

(** [None] for a declaration that is not well formed: an array without
    [items], an object without [properties], or keys that do not belong to
    the declared type. *)
Fixpoint shape_of (s : Schema) : option Shape :=
  match s with
  | mkSchema STRING _ None None => Some ShString
  | mkSchema NUMBER _ None None => Some ShNumber
  | mkSchema INTEGER _ None None => Some ShInteger
  | mkSchema BOOLEAN _ None None => Some ShBoolean
  | mkSchema ARRAY _ None (Some item) =>
      match shape_of item with
      | Some sh => Some (ShArrayOf sh)
      | None => None
      end
  | mkSchema OBJECT _ (Some props) None =>
      let fix fields (l : list (jsstring * Schema))
        : option (list (jsstring * Shape)) :=
        match l with
        | [] => Some []
        | (k, s') :: r =>
            match shape_of s', fields r with
            | Some sh, Some shs => Some ((k, sh) :: shs)
            | _, _ => None
            end
        end in
      match fields props with
      | Some fs => Some (ShObject fs)
      | None => None
      end
  | _ => None
  end.

Fixpoint find_field (key : jsstring) (fields : list (jsstring * Shape))
  : option Shape :=
  match fields with
  | [] => None
  | (k, sh) :: r => if JsString.eqb k key then Some sh else find_field key r
  end.

Fixpoint distinct_keys (fields : list (jsstring * Shape)) : bool :=
  match fields with
  | [] => true
  | (k, _) :: r =>
      match find_field k r with
      | Some _ => false
      | None => distinct_keys r
      end
  end.

(** Two shapes agree when they have the same type and, for objects, the same
    field names with agreeing shapes, in any order. *)
Fixpoint same_shape (a b : Shape) : bool :=
  match a, b with
  | ShString, ShString => true
  | ShNumber, ShNumber => true
  | ShInteger, ShInteger => true
  | ShBoolean, ShBoolean => true
  | ShArrayOf x, ShArrayOf y => same_shape x y
  | ShObject fa, ShObject fb =>
      Nat.eqb (List.length fa) (List.length fb)
      && distinct_keys fa && distinct_keys fb
      && forallb (fun kx =>
                    match find_field (fst kx) fb with
                    | Some y => same_shape (snd kx) y
                    | None => false
                    end) fa
  | _, _ => false
  end.

(** The data model of the specification, as a shape. *)
Definition FighterProfile_shape : Shape :=
  ShObject [ (js "fightingStyle", ShString);
             (js "strengths", ShArrayOf ShString);
             (js "weaknesses", ShArrayOf ShString);
             (js "fightingHabits", ShArrayOf ShString);
             (js "fightingPattern", ShArrayOf ShString) ].

Definition HeadToHead_shape : Shape :=
  ShObject [ (js "prediction", ShString); (js "confidence", ShNumber) ].

Definition GamePlan_shape : Shape :=
  ShObject [ (js "strategy", ShString);
             (js "keyTactics", ShArrayOf ShString);
             (js "drills", ShArrayOf ShString) ].

Definition AnalysisResult_shape : Shape :=
  ShObject [ (js "fighterAnalysis", FighterProfile_shape);
             (js "opponentAnalysis", FighterProfile_shape);
             (js "headToHead", HeadToHead_shape);
             (js "recommendedGamePlan", GamePlan_shape) ].

End Spec.
Import Spec.

(* ================================================================== *)
(** * The claims of the specification that the code does not meet, as the
      specification words them *)
(* ================================================================== *)

Module Claimed.

(** A reply that parses but lacks a required field makes the client fail
    with [AnalysisFormatError]. *)
Definition fails_on_missing_field (w : Platform)
    (fighterName opponentName weightClass : jsstring)
    (fighterVideo opponentVideo : File) : Prop :=
  forall p1 p2 response v,
    encoded w fighterVideo = Normal p1 ->
    encoded w opponentVideo = Normal p2 ->
    generateContent w {| apiKey := env_API_KEY w |}
      (request fighterName opponentName weightClass p1 p2)
    = Fulfilled response ->
    JSON_parse (trim (text response)) = Some v ->
    conforms_AnalysisResult v = false ->
    outcome (analyzeFights w fighterName opponentName weightClass
               fighterVideo opponentVideo)
    = Throw AnalysisFormatError.

(** The Encoder fails with an [EncodingError] exactly when the read errors or
    its result is not the expected base64 text, and resolves with a
    well-formed payload otherwise. *)
Definition fails_exactly_on_bad_read (w : Platform) (file : File) : Prop :=
  let o := readAsDataURL w file in
  ((exists e, encoded w file = Throw e /\ EncodingError e)
   <-> (FileApi.error o <> None \/ is_base64_text (result o) = false))
  /\ ((forall e, encoded w file <> Throw e) ->
      exists p, encoded w file = Normal p /\ well_formed_payload file p).

End Claimed.

(* ================================================================== *)
(** * Concrete platforms, files and replies *)
(* ================================================================== *)

Module Scenario.

(** A recorded clip, as a media recorder labels it, and an uploaded one. *)
Definition webm_clip : File :=
  {| FileApi.type := js "video/webm;codecs=vp8,opus";
     bytes := [Byte.x1a; Byte.x45; Byte.xdf; Byte.xa3] |}.

Definition mp4_clip : File :=
  {| FileApi.type := js "video/mp4";
     bytes := [Byte.x00; Byte.x00; Byte.x00; Byte.x18;
               Byte.x66; Byte.x74; Byte.x79; Byte.x70] |}.

Definition mov_clip : File :=
  {| FileApi.type := js "video/quicktime";
     bytes := [Byte.x00; Byte.x00; Byte.x00; Byte.x14; Byte.x66] |}.

Definition empty_clip : File :=
  {| FileApi.type := js "video/mp4"; bytes := [] |}.

Definition read_error : DomEvent :=
  {| event_type := js "error"; event_loaded := 0 |}.

Definition network_failure : JsThrown :=
  ErrorObject (js "TypeError") (js "Failed to fetch").

(** Every read succeeds with the file's data URL and the provider call
    returns [reply]. *)
Definition stub (reply : Promise GenerateContentResponse) : Platform :=
  {| env_API_KEY := Some (js "test-key");
     readAsDataURL := read_ok;
     generateContent := fun _ _ => reply;
     syntaxErrorMessage := fun _ => js "Unexpected end of JSON input" |}.

Definition replying (reply_text : jsstring) : Platform :=
  stub (Fulfilled {| text := reply_text |}).

(** Reads of QuickTime files fail; the provider would answer [{}]. *)
Definition quicktime_unreadable : Platform :=
  {| env_API_KEY := Some (js "test-key");
     readAsDataURL :=
       fun f => if JsString.eqb (FileApi.type f) (js "video/quicktime")
                then read_failed read_error else read_ok f;
     generateContent := fun _ _ => Fulfilled {| text := js "{}" |};
     syntaxErrorMessage := fun _ => js "Unexpected end of JSON input" |}.

(** Reads end without error but with a result that holds no data, the way
    some engines answer for an empty file. *)
Definition bare_reader : Platform :=
  {| env_API_KEY := Some (js "test-key");
     readAsDataURL := fun _ => {| error := None; result := ResultString (js "data:") |};
     generateContent := fun _ _ => Fulfilled {| text := js "{}" |};
     syntaxErrorMessage := fun _ => js "Unexpected end of JSON input" |}.

(** The inputs of the end-to-end scenario. *)
Definition jones : jsstring := js "Jones".
Definition smith : jsstring := js "Smith".
Definition heavyweight : jsstring := js "Heavyweight (265 lbs)".

(** The payload of a file read as the File API prescribes. *)
Definition payload_of (f : File) : Part :=
  InlinePart {| mimeType := FileApi.type f;
                data := Some (Base64.encode (bytes f)) |}.

(** JSON text of a member [key: value] and of an array of strings. *)
Definition member (key : string) (value : jsstring) : jsstring :=
  js_quoted key ++ js ":" ++ value.

Fixpoint comma_separated (items : list jsstring) : jsstring :=
  match items with
  | [] => []
  | [x] => x
  | x :: r => x ++ js "," ++ comma_separated r
  end.

Definition object_text (members : list jsstring) : jsstring :=
  js "{" ++ comma_separated members ++ js "}".

Definition strings_text (items : list string) : jsstring :=
  js "[" ++ comma_separated (map js_quoted items) ++ js "]".

Definition profile_text (style : string) : jsstring :=
  object_text
    [ member "strengths" (strings_text ["jab"; "footwork"]%string);
      member "fightingPattern" (strings_text ["circles left"]%string);
      member "fightingHabits" (strings_text ["drops the right hand"]%string);
      member "weaknesses" (strings_text ["takedown defence"]%string);
      member "fightingStyle" (js_quoted style) ].

Definition game_plan_text : jsstring :=
  object_text
    [ member "strategy" (js_quoted "Pressure and clinch");
      member "keyTactics" (strings_text ["cut off the cage"]%string);
      member "drills" (strings_text ["wall wrestling rounds"]%string) ].

(** A reply that conforms to the schema. *)
Definition conforming_reply : jsstring :=
  js "
" ++ object_text
    [ member "fighterAnalysis" (profile_text "Orthodox striker");
      member "opponentAnalysis" (profile_text "Southpaw wrestler");
      member "headToHead"
        (object_text [ member "prediction" (js_quoted "Jones by decision");
                       member "confidence" (js "72.5") ]);
      member "recommendedGamePlan" game_plan_text ] ++ js "
".

(** The same reply without [headToHead.confidence]. *)
Definition reply_without_confidence : jsstring :=
  object_text
    [ member "fighterAnalysis" (profile_text "Orthodox striker");
      member "opponentAnalysis" (profile_text "Southpaw wrestler");
      member "headToHead"
        (object_text [ member "prediction" (js_quoted "Jones by decision") ]);
      member "recommendedGamePlan" game_plan_text ].

(** A reply cut short. *)
Definition truncated_reply : jsstring :=
  js "{" ++ member "fighterAnalysis" (js "{") ++ js_quoted "strengths" ++ js ":[".

End Scenario.

(* ================================================================== *)
(** * React elements *)
(* ================================================================== *)

Module React.

(** The value of a prop: a string, or the index given as [key]. *)
Inductive PropValue :=
| PString (s : jsstring)
| PIndex (i : nat).

(** What JSX evaluates to: a host element, an element of a component that is
    not expanded here ([Spinner], [InsightCard]), text, an expression child
    holding a JavaScript value ([None] for [undefined]) and the array a
    [map] call yields. *)
Inductive Node :=
| Host (tag : string) (props : list (string * PropValue)) (children : list Node)
| Custom (component : string) (props : list (string * PropValue))
    (children : list Node)
| Text (s : jsstring)
| Expr (v : option JSValue)
| Items (elements : list Node).

Definition attr (name value : string) : string * PropValue :=
  (name, PString (js value)).

Definition className (value : string) : string * PropValue :=
  attr "className" value.

End React.

(* ================================================================== *)
(** * [components/ResultsSection.tsx] *)
(* ================================================================== *)

Module Components.

Import React.

(** The message the engine gives the [TypeError] of a failed property read
    or call, from the value it was attempted on and the property's name. *)
Record Engine := { typeErrorMessage : option JSValue -> string -> jsstring }.

Definition TypeError (eng : Engine) (base : option JSValue) (key : string)
  : JsThrown :=
  ErrorObject (js "TypeError") (typeErrorMessage eng base key).

(** A number literal denotes zero as a double when its mantissa is zero or
    its value is at most [2^-1075], half the least positive double. *)
Definition rounds_to_zero (mantissa : N) (exp10 : Z) : bool :=
  N.eqb mantissa 0
  || (Z.ltb exp10 0
      && N.leb (mantissa * 2 ^ 1075) (10 ^ Z.to_N (- exp10))).

(** [ToBoolean]: what [if (x)] and [!x] test; [None] is [null] or
    [undefined]. *)
Definition ToBoolean (v : option JSValue) : bool :=
  match v with
  | None => false
  | Some JNull => false
  | Some (JBool b) => b
  | Some (JNumber _ mantissa exp10) => negb (rounds_to_zero mantissa exp10)
  | Some (JString s) => match s with [] => false | _ :: _ => true end
  | Some (JArray _) => true
  | Some (JObject _) => true
  end.

(** [s || fallback] on strings. *)
Definition or_else (s : jsstring) (fallback : string) : jsstring :=
  match s with
  | [] => js fallback
  | _ :: _ => s
  end.

(** The property read [base.key] for a key that is no built-in property:
    a [TypeError] on [undefined] and [null], the member of an object, and
    [undefined] on every other value. *)
Definition read_property (eng : Engine) (base : option JSValue) (key : string)
  : Completion (option JSValue) :=
  match base with
  | None => Throw (TypeError eng base key)
  | Some JNull => Throw (TypeError eng base key)
  | Some (JObject members) => Normal (get_member (js key) members)
  | Some _ => Normal None
  end.

Fixpoint map_indexed {A B : Type} (f : A -> nat -> B) (i : nat) (l : list A)
  : list B :=
  match l with
  | [] => []
  | x :: r => f x i :: map_indexed f (S i) r
  end.

(** The call [list.map((x, i) => <li key={i}>{x}</li>)]: only an array has a
    [map] to call. *)
Definition list_items (eng : Engine) (list : option JSValue) : Completion Node :=
  match list with
  | Some (JArray elements) =>
      Normal (Items (map_indexed
                       (fun x i => Host "li" [("key"%string, PIndex i)]
                                     [Expr (Some x)])
                       0 elements))
  | _ => Throw (TypeError eng list "map")
  end.

Definition and_then {A B : Type} (c : Completion A) (k : A -> Completion B)
  : Completion B :=
  match c with
  | Normal a => k a
  | Throw e => Throw e
  | Suspended => Suspended
  end.

Notation "x <-- c ;; k" := (and_then c (fun x => k))
  (at level 61, c at next level, right associativity).

Record ResultsSectionProps := {
  isLoading : bool;
  analysisResult : option JSValue;
  error : option jsstring;
  fighterName : jsstring;
  opponentName : jsstring }.

Definition loading_view : Node :=
  Host "div"
    [className "flex flex-col items-center justify-center h-full text-center"]
    [ Custom "Spinner" [attr "size" "lg"] [];
      Host "p" [className "mt-4 text-lg font-semibold text-gray-600"]
        [Text (js "Analyzing footage...")];
      Host "p" [className "mt-2 text-sm text-gray-500"]
        [Text (js "This may take a moment. Gemini is reviewing the fights to provide expert analysis.")] ].

Definition error_view (error : jsstring) : Node :=
  Host "div"
    [className "text-center bg-red-100 border border-red-400 text-red-700 px-4 py-3 rounded relative";
     attr "role" "alert"]
    [ Host "strong" [className "font-bold"] [Text (js "Analysis Failed:")];
      Host "span" [className "block sm:inline ml-2"] [Text error] ].

(** The robot emoji is [U+1F916], two code units. *)
Definition empty_view : Node :=
  Host "div"
    [className "text-center h-full flex flex-col justify-center items-center"]
    [ Host "div"
        [className "text-6xl mb-4"; attr "role" "img"; attr "aria-label" "robot"]
        [Text [55358; 56598]%N];
      Host "h3" [className "text-2xl font-bold text-slate-800"]
        [Text (js "Ready for Analysis")];
      Host "p" [className "mt-2 text-gray-500"]
        [Text (js "Fill in the details and upload fight videos to get a comprehensive breakdown and a strategic game plan.")] ].

(** The children of the head-to-head card. *)
Definition head_to_head_children (eng : Engine) (headToHead : option JSValue)
  : Completion (list Node) :=
  prediction <-- read_property eng headToHead "prediction" ;;
  confidence <-- read_property eng headToHead "confidence" ;;
  Normal
    [ Host "p" [className "font-semibold text-gray-800"] [Expr prediction];
      Host "p" [className "text-sm text-gray-600"]
        [Text (js "Confidence: "); Expr confidence; Text (js "%")] ].

(** The children of a profile card; the fighter's and the opponent's card
    have the same JSX. *)
Definition profile_children (eng : Engine) (analysis : option JSValue)
  : Completion (list Node) :=
  fightingStyle <-- read_property eng analysis "fightingStyle" ;;
  strengths <-- read_property eng analysis "strengths" ;;
  strengths_items <-- list_items eng strengths ;;
  weaknesses <-- read_property eng analysis "weaknesses" ;;
  weaknesses_items <-- list_items eng weaknesses ;;
  fightingHabits <-- read_property eng analysis "fightingHabits" ;;
  fightingHabits_items <-- list_items eng fightingHabits ;;
  fightingPattern <-- read_property eng analysis "fightingPattern" ;;
  fightingPattern_items <-- list_items eng fightingPattern ;;
  Normal
    [ Host "h5" [className "font-semibold mt-2"] [Text (js "Style:")];
      Host "p" [] [Expr fightingStyle];
      Host "h5" [className "font-semibold mt-2"] [Text (js "Strengths:")];
      Host "ul" [className "list-disc list-inside"] [strengths_items];
      Host "h5" [className "font-semibold mt-2"] [Text (js "Weaknesses:")];
      Host "ul" [className "list-disc list-inside"] [weaknesses_items];
      Host "h5" [className "font-semibold mt-2"] [Text (js "Fighting habits:")];
      Host "ul" [className "list-disc list-inside"] [fightingHabits_items];
      Host "h5" [className "font-semibold mt-2"] [Text (js "Fighting pattern:")];
      Host "ul" [className "list-disc list-inside"] [fightingPattern_items] ].

(** The children of the game-plan card. *)
Definition game_plan_children (eng : Engine)
    (recommendedGamePlan : option JSValue) : Completion (list Node) :=
  strategy <-- read_property eng recommendedGamePlan "strategy" ;;
  keyTactics <-- read_property eng recommendedGamePlan "keyTactics" ;;
  keyTactics_items <-- list_items eng keyTactics ;;
  drills <-- read_property eng recommendedGamePlan "drills" ;;
  drills_items <-- list_items eng drills ;;
  Normal
    [ Host "h5" [className "font-semibold"] [Text (js "Strategy:")];
      Host "p" [] [Expr strategy];
      Host "h5" [className "font-semibold mt-3"] [Text (js "Key Tactics:")];
      Host "ul" [className "list-disc list-inside"] [keyTactics_items];
      Host "h5" [className "font-semibold mt-3"] [Text (js "Recommended Drills:")];
      Host "ul" [className "list-disc list-inside"] [drills_items] ].

(** The last branch of [renderContent]: the four cards, their expressions
    evaluated in the order of the JSX. *)
Definition result_view (eng : Engine) (analysisResult : option JSValue)
    (fighterName opponentName : jsstring) : Completion Node :=
  fighterAnalysis <-- read_property eng analysisResult "fighterAnalysis" ;;
  opponentAnalysis <-- read_property eng analysisResult "opponentAnalysis" ;;
  headToHead <-- read_property eng analysisResult "headToHead" ;;
  recommendedGamePlan <--
    read_property eng analysisResult "recommendedGamePlan" ;;
  head_to_head <-- head_to_head_children eng headToHead ;;
  fighter_profile <-- profile_children eng fighterAnalysis ;;
  opponent_profile <-- profile_children eng opponentAnalysis ;;
  game_plan <-- game_plan_children eng recommendedGamePlan ;;
  Normal
    (Host "div" [className "space-y-6"]
       [ Host "h3"
           [className "text-3xl font-bold text-slate-800 pb-2 border-b-2 border-red-500"]
           [Text (js "Fight Analysis & Game Plan")];
         Custom "InsightCard"
           [("title"%string,
             PString (js "Head-to-Head: " ++ or_else fighterName "Fighter"
                      ++ js " vs. " ++ or_else opponentName "Opponent"))]
           head_to_head;
         Host "div" [className "grid grid-cols-1 md:grid-cols-2 gap-6"]
           [ Custom "InsightCard"
               [("title"%string,
                 PString (or_else fighterName "Fighter" ++ js "'s Profile"))]
               fighter_profile;
             Custom "InsightCard"
               [("title"%string,
                 PString (or_else opponentName "Opponent" ++ js "'s Profile"))]
               opponent_profile ];
         Custom "InsightCard"
           [("title"%string,
             PString (js "Recommended Game Plan for "
                      ++ or_else fighterName "Fighter"))]
           game_plan ]).

Definition renderContent (eng : Engine) (props : ResultsSectionProps)
  : Completion Node :=
  if isLoading props then Normal loading_view
  else
    match error props with
    | Some (c :: message) => Normal (error_view (c :: message))
    | _ =>
        if negb (ToBoolean (analysisResult props)) then Normal empty_view
        else result_view eng (analysisResult props)
               (fighterName props) (opponentName props)
    end.

Definition ResultsSection (eng : Engine) (props : ResultsSectionProps)
  : Completion Node :=
  content <-- renderContent eng props ;;
  Normal (Host "div" [className "bg-white rounded-lg p-6 shadow-md h-full"]
            [content]).

(** When the last branch of [renderContent] evaluates without a
    [TypeError]: the four substructures can be read from, and the ten list
    properties are arrays. *)
Definition readable (v : option JSValue) : bool :=
  match v with
  | None => false
  | Some JNull => false
  | Some _ => true
  end.

Definition property (v : option JSValue) (key : string) : option JSValue :=
  match v with
  | Some (JObject members) => get_member (js key) members
  | _ => None
  end.

Definition is_array (v : option JSValue) : bool :=
  match v with
  | Some (JArray _) => true
  | _ => false
  end.

Definition profile_ready (analysis : option JSValue) : bool :=
  readable analysis
  && is_array (property analysis "strengths")
  && is_array (property analysis "weaknesses")
  && is_array (property analysis "fightingHabits")
  && is_array (property analysis "fightingPattern").

Definition game_plan_ready (plan : option JSValue) : bool :=
  readable plan
  && is_array (property plan "keyTactics")
  && is_array (property plan "drills").

Definition view_ready (result : option JSValue) : bool :=
  readable (property result "headToHead")
  && profile_ready (property result "fighterAnalysis")
  && profile_ready (property result "opponentAnalysis")
  && game_plan_ready (property result "recommendedGamePlan").

End Components.

(* ================================================================== *)
(** * More concrete platforms, files, replies and props *)
(* ================================================================== *)

Module MoreScenarios.

Import React Components Scenario.

(** A second recording with the declared type of [webm_clip] and other
    content. *)
Definition other_webm_clip : File :=
  {| FileApi.type := js "video/webm;codecs=vp8,opus";
     bytes := [Byte.x1a; Byte.x45; Byte.xdf; Byte.xa3; Byte.x9f; Byte.x42] |}.

(** Reads fire the error event although a result text is present. *)
Definition error_with_text : Platform :=
  {| env_API_KEY := Some (js "test-key");
     readAsDataURL :=
       fun f => {| FileApi.error := Some read_error;
                   result := ResultString (data_url f) |};
     generateContent := fun _ _ => Fulfilled {| text := js "{}" |};
     syntaxErrorMessage := fun _ => js "Unexpected end of JSON input" |}.

(** Reads end without error with a buffer for result. *)
Definition buffer_reader : Platform :=
  {| env_API_KEY := Some (js "test-key");
     readAsDataURL :=
       fun f => {| FileApi.error := None;
                   result := ResultArrayBuffer (bytes f) |};
     generateContent := fun _ _ => Fulfilled {| text := js "{}" |};
     syntaxErrorMessage := fun _ => js "Unexpected end of JSON input" |}.

(** The conforming reply after a byte-order mark and before a no-break space
    and a line feed. *)
Definition byte_order_mark : jsstring := [65279]%N.
Definition trailing_space : jsstring := [160; 10]%N.

Definition padded_reply : jsstring :=
  byte_order_mark ++ conforming_reply ++ trailing_space.

(** The conforming reply without its game plan. *)
Definition reply_without_game_plan : jsstring :=
  object_text
    [ member "fighterAnalysis" (profile_text "Orthodox striker");
      member "opponentAnalysis" (profile_text "Southpaw wrestler");
      member "headToHead"
        (object_text [ member "prediction" (js_quoted "Jones by decision");
                       member "confidence" (js "72.5") ]) ].

Definition engine : Engine :=
  {| typeErrorMessage :=
       fun _ key =>
         js "Cannot read properties of undefined (reading '" ++ js key ++ js "')" |}.

(** Props that show [result], with an empty opponent name. *)
Definition showing (result : option JSValue) : ResultsSectionProps :=
  {| isLoading := false; analysisResult := result; Components.error := None;
     fighterName := jones; opponentName := [] |}.

(** Props of a view that is loading, and of one that shows an error, both
    over a result without game plan. *)
Definition loading_props : ResultsSectionProps :=
  {| isLoading := true;
     analysisResult := JSON_parse reply_without_game_plan;
     Components.error := Some (js "Failed to fetch");
     fighterName := jones; opponentName := smith |}.

Definition failed_props : ResultsSectionProps :=
  {| isLoading := false;
     analysisResult := JSON_parse reply_without_game_plan;
     Components.error := Some (js "Failed to fetch");
     fighterName := jones; opponentName := smith |}.

Definition failed_props_without_result : ResultsSectionProps :=
  {| isLoading := false;
     analysisResult := None;
     Components.error := Some (js "Failed to fetch");
     fighterName := []; opponentName := [] |}.

End MoreScenarios.

(* ================================================================== *)
(** * What a schema admits *)
(* ================================================================== *)

Module SchemaMeaning.

(** A number literal denotes an integer when its exponent is not negative or
    its mantissa is a multiple of the power of ten it is divided by. *)
Definition is_integral (mantissa : N) (exp10 : Z) : bool :=
  Z.leb 0 exp10 || N.eqb (mantissa mod 10 ^ Z.to_N (- exp10)) 0.

(** The meaning of a schema object, as in OpenAPI 3.0, which the SDK's
    [Schema] follows: a value satisfies it when it has the declared type,
    every element of an array satisfies [items], and every property of an
    object that is declared under [properties] and present in the value
    satisfies its schema.  A property has to be present only when it is
    listed under [required], a key the service never writes; properties that
    are not declared are not examined. *)
Fixpoint satisfies (s : Schema) (v : JSValue) {struct s} : bool :=
  match s with
  | mkSchema t _ props its =>
      match t, v with
      | STRING, JString _ => true
      | NUMBER, JNumber _ _ _ => true
      | INTEGER, JNumber _ mantissa exp10 => is_integral mantissa exp10
      | BOOLEAN, JBool _ => true
      | ARRAY, JArray elements =>
          match its with
          | Some item => forallb (satisfies item) elements
          | None => true
          end
      | OBJECT, JObject members =>
          match props with
          | Some declared =>
              (fix each (l : list (jsstring * Schema)) : bool :=
                 match l with
                 | [] => true
                 | (key, sub) :: r =>
                     match get_member key members with
                     | Some x => satisfies sub x
                     | None => true
                     end && each r
                 end) declared
          | None => true
          end
      | _, _ => false
      end
  end.

Definition is_object (v : JSValue) : bool :=
  match v with JObject _ => true | _ => false end.

(** [v] lacks the property [key], or its value passes [check]. *)
Definition has_if_present (key : string) (check : JSValue -> bool)
    (v : JSValue) : bool :=
  match get key v with
  | Some x => check x
  | None => true
  end.

(** Modelled from the spec: [types.ts] is not among the source files.  The
    Fighter Profile of the data model with every property optional: an
    object whose [fightingStyle], when present, is a string and whose
    [strengths], [weaknesses], [fightingHabits] and [fightingPattern], when
    present, are arrays of strings. *)
Definition admits_FighterProfile (v : JSValue) : bool :=
  is_object v
  && has_if_present "fightingStyle" is_string v
  && has_if_present "strengths" is_string_array v
  && has_if_present "weaknesses" is_string_array v
  && has_if_present "fightingHabits" is_string_array v
  && has_if_present "fightingPattern" is_string_array v.

(** Modelled from the spec: [types.ts] is not among the source files.  The
    Head-to-Head of the data model with every property optional. *)
Definition admits_HeadToHead (v : JSValue) : bool :=
  is_object v
  && has_if_present "prediction" is_string v
  && has_if_present "confidence" is_number v.

(** Modelled from the spec: [types.ts] is not among the source files.  The
    Game Plan of the data model with every property optional. *)
Definition admits_GamePlan (v : JSValue) : bool :=
  is_object v
  && has_if_present "strategy" is_string v
  && has_if_present "keyTactics" is_string_array v
  && has_if_present "drills" is_string_array v.

(** Modelled from the spec: [types.ts] is not among the source files.  The
    Analysis Result of the data model with every substructure and every
    property optional. *)
Definition admits_AnalysisResult (v : JSValue) : bool :=
  is_object v
  && has_if_present "fighterAnalysis" admits_FighterProfile v
  && has_if_present "opponentAnalysis" admits_FighterProfile v
  && has_if_present "headToHead" admits_HeadToHead v
  && has_if_present "recommendedGamePlan" admits_GamePlan v.

(** The claim as the specification words it: the declaration constrains a
    reply to an object with exactly the four substructures of the data
    model, with exactly their fields and types. *)
Definition schema_requires_data_model (fighterName opponentName : jsstring)
  : Prop :=
  forall v,
    satisfies (GeminiService.responseSchema fighterName opponentName) v = true ->
    conforms_AnalysisResult v = true.

End SchemaMeaning.

(* ================================================================== *)
(** * Facts about strings and base64 *)
(* ================================================================== *)

Import Scenario.

Ltac Zify.zify_post_hook ::= Z.to_euclidean_division_equations.

Lemma list_ind3 (A : Type) (P : list A -> Prop) :
  P [] -> (forall a, P [a]) -> (forall a b, P [a; b]) ->
  (forall a b c l, P l -> P (a :: b :: c :: l)) ->
  forall l, P l.
Proof.
  intros H0 H1 H2 H3. fix IH 1.
  intros [|a [|b [|c l]]];
    [exact H0 | apply H1 | apply H2 | apply H3; apply IH].
Qed.

Lemma below_64_cases (i : N) :
  (i < 64)%N -> existsb (N.eqb i) (map N.of_nat (seq 0 64)) = true.
Proof.
  intros H. apply existsb_exists. exists i. split; [|apply N.eqb_refl].
  apply in_map_iff. exists (N.to_nat i). split; [lia|]. apply in_seq. lia.
Qed.

Ltac each_sextet i H :=
  let E := fresh "E" in
  pose proof (below_64_cases i H) as E; cbn in E;
  repeat (apply orb_prop in E;
          destruct E as [E|E]; [apply N.eqb_eq in E; subst i; reflexivity|]);
  discriminate.

Lemma char_sextet_sextet_char (i : N) :
  (i < 64)%N -> Base64.char_sextet (Base64.sextet_char i) = Some i.
Proof. intros H. each_sextet i H. Qed.

Lemma sextet_char_not_pad (i : N) :
  (i < 64)%N -> N.eqb (Base64.sextet_char i) Base64.pad = false.
Proof. intros H. each_sextet i H. Qed.

Lemma alphabet_comma_free :
  forallb (fun c => negb (N.eqb c (ch ","))) (0%N :: Base64.alphabet) = true.
Proof. reflexivity. Qed.

Lemma sextet_char_not_comma (i : N) : Base64.sextet_char i <> ch ",".
Proof.
  assert (In (Base64.sextet_char i) (0%N :: Base64.alphabet)) as HIn.
  { unfold Base64.sextet_char.
    destruct (nth_in_or_default (N.to_nat i) Base64.alphabet 0%N) as [H|H].
    - right. exact H.
    - left. symmetry. exact H. }
  pose proof alphabet_comma_free as F.
  rewrite forallb_forall in F. specialize (F _ HIn).
  intros E. rewrite E in F. discriminate.
Qed.

Lemma octet1_regroup (a b : Byte.byte) :
  Base64.octet1 (Byte.to_N a / 4) (Byte.to_N a mod 4 * 16 + Byte.to_N b / 16)
  = Some a.
Proof.
  unfold Base64.octet1.
  pose proof (Byte.to_N_bounded a). pose proof (Byte.to_N_bounded b).
  replace (_ + _)%N with (Byte.to_N a) by lia. apply Byte.of_to_N.
Qed.

Lemma octet1_regroup_last (a : Byte.byte) :
  Base64.octet1 (Byte.to_N a / 4) (Byte.to_N a mod 4 * 16) = Some a.
Proof.
  unfold Base64.octet1. pose proof (Byte.to_N_bounded a).
  replace (_ + _)%N with (Byte.to_N a) by lia. apply Byte.of_to_N.
Qed.

Lemma octet2_regroup (a b c : Byte.byte) :
  Base64.octet2 (Byte.to_N a mod 4 * 16 + Byte.to_N b / 16)
                (Byte.to_N b mod 16 * 4 + Byte.to_N c / 64)
  = Some b.
Proof.
  unfold Base64.octet2.
  pose proof (Byte.to_N_bounded a). pose proof (Byte.to_N_bounded b).
  pose proof (Byte.to_N_bounded c).
  replace (_ + _)%N with (Byte.to_N b) by lia. apply Byte.of_to_N.
Qed.

Lemma octet2_regroup_last (a b : Byte.byte) :
  Base64.octet2 (Byte.to_N a mod 4 * 16 + Byte.to_N b / 16)
                (Byte.to_N b mod 16 * 4)
  = Some b.
Proof.
  unfold Base64.octet2.
  pose proof (Byte.to_N_bounded a). pose proof (Byte.to_N_bounded b).
  replace (_ + _)%N with (Byte.to_N b) by lia. apply Byte.of_to_N.
Qed.

Lemma octet3_regroup (b c : Byte.byte) :
  Base64.octet3 (Byte.to_N b mod 16 * 4 + Byte.to_N c / 64) (Byte.to_N c mod 64)
  = Some c.
Proof.
  unfold Base64.octet3.
  pose proof (Byte.to_N_bounded b). pose proof (Byte.to_N_bounded c).
  replace (_ + _)%N with (Byte.to_N c) by lia. apply Byte.of_to_N.
Qed.

(** Decoding a group of four alphabet characters. *)
Lemma decode_group (s1 s2 s3 s4 : N) (rest : jsstring) :
  (s1 < 64)%N -> (s2 < 64)%N -> (s3 < 64)%N -> (s4 < 64)%N ->
  Base64.decode (Base64.sextet_char s1 :: Base64.sextet_char s2
                 :: Base64.sextet_char s3 :: Base64.sextet_char s4 :: rest)
  = Base64.cons_opt (Base64.octet1 s1 s2)
      (Base64.cons_opt (Base64.octet2 s2 s3)
         (Base64.cons_opt (Base64.octet3 s3 s4) (Base64.decode rest))).
Proof.
  intros H1 H2 H3 H4.
  cbn -[Base64.char_sextet Base64.sextet_char N.eqb Base64.pad
        Base64.octet1 Base64.octet2 Base64.octet3 Base64.cons_opt].
  rewrite !char_sextet_sextet_char by assumption.
  rewrite !sextet_char_not_pad by assumption.
  reflexivity.
Qed.

Lemma decode_group_one_pad (s1 s2 s3 : N) :
  (s1 < 64)%N -> (s2 < 64)%N -> (s3 < 64)%N ->
  Base64.decode [Base64.sextet_char s1; Base64.sextet_char s2;
                 Base64.sextet_char s3; Base64.pad]
  = Base64.cons_opt (Base64.octet1 s1 s2)
      (Base64.cons_opt (Base64.octet2 s2 s3) (Some [])).
Proof.
  intros H1 H2 H3.
  cbn -[Base64.char_sextet Base64.sextet_char N.eqb Base64.pad
        Base64.octet1 Base64.octet2 Base64.cons_opt].
  rewrite !char_sextet_sextet_char by assumption.
  rewrite sextet_char_not_pad by assumption.
  rewrite N.eqb_refl. reflexivity.
Qed.

Lemma decode_group_two_pads (s1 s2 : N) :
  (s1 < 64)%N -> (s2 < 64)%N ->
  Base64.decode [Base64.sextet_char s1; Base64.sextet_char s2;
                 Base64.pad; Base64.pad]
  = Base64.cons_opt (Base64.octet1 s1 s2) (Some []).
Proof.
  intros H1 H2.
  cbn -[Base64.char_sextet Base64.sextet_char N.eqb Base64.pad
        Base64.octet1 Base64.cons_opt].
  rewrite !char_sextet_sextet_char by assumption.
  rewrite !N.eqb_refl. reflexivity.
Qed.

(** Base64 decoding inverts base64 encoding. *)
Lemma decode_encode (bs : list Byte.byte) :
  Base64.decode (Base64.encode bs) = Some bs.
Proof.
  induction bs as [|a|a b|a b c l IH] using list_ind3.
  - reflexivity.
  - pose proof (Byte.to_N_bounded a).
    cbn [Base64.encode].
    rewrite decode_group_two_pads by lia.
    rewrite octet1_regroup_last. reflexivity.
  - pose proof (Byte.to_N_bounded a). pose proof (Byte.to_N_bounded b).
    cbn [Base64.encode].
    rewrite decode_group_one_pad by lia.
    rewrite octet1_regroup, octet2_regroup_last. reflexivity.
  - pose proof (Byte.to_N_bounded a). pose proof (Byte.to_N_bounded b).
    pose proof (Byte.to_N_bounded c).
    cbn [Base64.encode].
    rewrite decode_group by lia.
    rewrite octet1_regroup, octet2_regroup, octet3_regroup, IH. reflexivity.
Qed.

Lemma pad_not_comma : Base64.pad <> ch ",".
Proof. intros H. vm_compute in H. discriminate. Qed.

Lemma encode_comma_free (bs : list Byte.byte) :
  ~ In (ch ",") (Base64.encode bs).
Proof.
  induction bs as [|a|a b|a b c l IH] using list_ind3; cbn [Base64.encode In].
  - tauto.
  - intros [H|[H|[H|[H|[]]]]];
      solve [ exact (sextet_char_not_comma _ H)
            | exact (pad_not_comma H) ].
  - intros [H|[H|[H|[H|[]]]]];
      solve [ exact (sextet_char_not_comma _ H)
            | exact (pad_not_comma H) ].
  - intros [H|[H|[H|[H|H]]]];
      solve [ exact (sextet_char_not_comma _ H)
            | exact (IH H) ].
Qed.

Lemma split_without_separator (sep : code_unit) (s : jsstring) :
  ~ In sep s -> split sep s = [s].
Proof.
  induction s as [|c r IH]; intros H; cbn [split].
  - reflexivity.
  - destruct (N.eqb_spec c sep) as [E|E].
    + exfalso. apply H. left. exact E.
    + rewrite IH; [reflexivity|]. intros HIn. apply H. right. exact HIn.
Qed.

Lemma split_at_first_separator (sep : code_unit) (a b : jsstring) :
  ~ In sep a -> split sep (a ++ sep :: b) = a :: split sep b.
Proof.
  induction a as [|c r IH]; intros H; cbn [split app].
  - rewrite N.eqb_refl. reflexivity.
  - destruct (N.eqb_spec c sep) as [E|E].
    + exfalso. apply H. left. exact E.
    + rewrite IH; [reflexivity|]. intros HIn. apply H. right. exact HIn.
Qed.

Lemma includes_one_false (c : code_unit) (s : jsstring) :
  includes [c] s = false -> ~ In c s.
Proof.
  induction s as [|d r IH]; cbn [includes starts_with In]; intros H.
  - tauto.
  - apply orb_false_elim in H. destruct H as [H1 H2].
    rewrite andb_true_r in H1. apply N.eqb_neq in H1.
    intros [E|HIn]; [congruence|]. exact (IH H2 HIn).
Qed.

(** The data URL of a file whose type has no comma splits into its header and
    the base64 text. *)
Lemma split_data_url (f : File) :
  includes (js ",") (FileApi.type f) = false ->
  split (ch ",") (data_url f)
  = [js "data:" ++ FileApi.type f ++ js ";base64"; Base64.encode (bytes f)].
Proof.
  intros H. apply includes_one_false in H.
  unfold data_url.
  change (js ";base64,") with (js ";base64" ++ [ch ","]).
  replace (js "data:" ++ FileApi.type f ++ (js ";base64" ++ [ch ","])
           ++ Base64.encode (bytes f))
    with ((js "data:" ++ FileApi.type f ++ js ";base64")
          ++ ch "," :: Base64.encode (bytes f))
    by (rewrite <- !app_assoc; reflexivity).
  rewrite split_at_first_separator.
  - rewrite split_without_separator by apply encode_comma_free. reflexivity.
  - intros HIn. apply in_app_or in HIn. destruct HIn as [HIn|HIn].
    + cbn in HIn. intuition discriminate.
    + apply in_app_or in HIn. destruct HIn as [HIn|HIn]; [tauto|].
      cbn in HIn. intuition discriminate.
Qed.

(* ================================================================== *)
(** * [JSON.parse] does not run out of fuel *)
(* ================================================================== *)

Lemma skip_ws_length (s : jsstring) : List.length (skip_ws s) <= List.length s.
Proof.
  induction s as [|c r IH]; cbn [skip_ws List.length]; [lia|].
  destruct (is_ws c); cbn [List.length]; lia.
Qed.

Lemma take_digits_length (s : jsstring) :
  List.length (snd (take_digits s)) <= List.length s.
Proof.
  induction s as [|c r IH]; cbn [take_digits List.length snd]; [lia|].
  destruct (is_digit c); [|cbn; lia].
  destruct (take_digits r) as [ds rest]. cbn [snd] in *. lia.
Qed.

Lemma parse_chars_length (s str rest : jsstring) :
  parse_chars s = Some (str, rest) -> List.length rest < List.length s.
Proof.
  remember (List.length s) as n eqn:En. revert s En str rest.
  induction n as [n IHn] using lt_wf_ind. intros s En str rest. subst n.
  assert (IH : forall s' str' rest', List.length s' < List.length s ->
                 parse_chars s' = Some (str', rest') ->
                 List.length rest' < List.length s')
    by (intros s' str' rest' Hlt; exact (IHn _ Hlt s' eq_refl str' rest')).
  clear IHn.
  destruct s as [|c r]; cbn [parse_chars]; [discriminate|].
  destruct (N.eqb c dquote).
  { intros H. inversion H; subst. cbn. lia. }
  destruct (N.eqb c 92).
  - destruct r as [|e r']; [discriminate|].
    destruct (N.eqb e (ch "u")).
    + destruct r' as [|h1 [|h2 [|h3 [|h4 r'']]]]; try discriminate.
      destruct (hex4 h1 h2 h3 h4); [|discriminate].
      destruct (parse_chars r'') as [[str' rest']|] eqn:E; [|discriminate].
      intros H. inversion H; subst.
      apply IH in E; cbn [List.length] in *; lia.
    + destruct (escape_char e); [|discriminate].
      destruct (parse_chars r') as [[str' rest']|] eqn:E; [|discriminate].
      intros H. inversion H; subst.
      apply IH in E; cbn [List.length] in *; lia.
  - destruct (N.ltb c 32); [discriminate|].
    destruct (parse_chars r) as [[str' rest']|] eqn:E; [|discriminate].
    intros H. inversion H; subst.
    apply IH in E; cbn [List.length] in *; lia.
Qed.

Lemma take_digits_rest (s : jsstring) (ds : list N) (rest : jsstring) :
  take_digits s = (ds, rest) -> List.length rest <= List.length s.
Proof.
  intros H. pose proof (take_digits_length s) as L. rewrite H in L. exact L.
Qed.

Lemma parse_sign_length (s : jsstring) (b : bool) (rest : jsstring) :
  parse_sign s = (b, rest) -> List.length rest <= List.length s.
Proof.
  unfold parse_sign. destruct s as [|c r]; [|destruct (N.eqb c (ch "-"))];
    intros H; inversion H; subst; cbn [List.length]; lia.
Qed.

Lemma parse_fraction_length (s : jsstring) (ds : list N) (rest : jsstring) :
  parse_fraction s = Some (ds, rest) -> List.length rest <= List.length s.
Proof.
  unfold parse_fraction. destruct s as [|c r].
  { intros H. inversion H; subst. lia. }
  destruct (N.eqb c (ch ".")).
  - destruct (take_digits r) as [[|d ds'] rest'] eqn:E; [discriminate|].
    intros H. inversion H; subst. apply take_digits_rest in E.
    cbn [List.length]. lia.
  - intros H. inversion H; subst. lia.
Qed.

Lemma parse_exponent_sign_length (s : jsstring) (b : bool) (rest : jsstring) :
  parse_exponent_sign s = (b, rest) -> List.length rest <= List.length s.
Proof.
  unfold parse_exponent_sign. destruct s as [|c r].
  - intros H. inversion H; subst. lia.
  - destruct (N.eqb c (ch "-")); [|destruct (N.eqb c (ch "+"))];
      intros H; inversion H; subst; cbn [List.length]; lia.
Qed.

Lemma parse_exponent_length (s : jsstring) (e : Z) (rest : jsstring) :
  parse_exponent s = Some (e, rest) -> List.length rest <= List.length s.
Proof.
  unfold parse_exponent. destruct s as [|c r].
  { intros H. inversion H; subst. lia. }
  destruct (N.eqb c (ch "e") || N.eqb c (ch "E")).
  - destruct (parse_exponent_sign r) as [eneg r1] eqn:Es.
    apply parse_exponent_sign_length in Es.
    destruct (take_digits r1) as [[|d ds'] rest'] eqn:E; [discriminate|].
    intros H. inversion H; subst. apply take_digits_rest in E.
    cbn [List.length]. lia.
  - intros H. inversion H; subst. lia.
Qed.

Lemma parse_number_length (s : jsstring) (v : JSValue) (rest : jsstring) :
  parse_number s = Some (v, rest) -> List.length rest <= List.length s.
Proof.
  unfold parse_number.
  destruct (parse_sign s) as [negative s1] eqn:E1.
  destruct (take_digits s1) as [[|d more] s2] eqn:E2; [discriminate|].
  destruct (_ && _); [discriminate|].
  destruct (parse_fraction s2) as [[frac_ds s3]|] eqn:E3; [|discriminate].
  destruct (parse_exponent s3) as [[e s4]|] eqn:E4; [|discriminate].
  intros H. inversion H; subst.
  apply parse_sign_length in E1. apply take_digits_rest in E2.
  apply parse_fraction_length in E3. apply parse_exponent_length in E4. lia.
Qed.

Lemma literal_rest_length (k : nat) (l : jsstring) (a v : JSValue)
    (rest : jsstring) :
  Some (a, skipn k l) = Some (v, rest) -> List.length rest <= List.length l.
Proof.
  intros H. inversion H; subst. rewrite length_skipn. lia.
Qed.

Lemma parse_lengths (fuel : nat) :
  (forall s v rest,
      parse_value fuel s = Some (v, rest) -> List.length rest <= List.length s) /\
  (forall s acc v rest,
      parse_members fuel s acc = Some (v, rest) ->
      List.length rest <= List.length s) /\
  (forall s acc v rest,
      parse_elements fuel s acc = Some (v, rest) ->
      List.length rest <= List.length s).
Proof.
  induction fuel as [|n (IHv & IHm & IHe)].
  { repeat split; intros; discriminate. }
  repeat split.
  - intros s v rest. cbn [parse_value].
    pose proof (skip_ws_length s) as Ls.
    destruct (skip_ws s) as [|c r]; [discriminate|]. cbn [List.length] in Ls.
    destruct (N.eqb c (ch "{")).
    { pose proof (skip_ws_length r) as Lr.
      destruct (skip_ws r) as [|c' r']; [discriminate|]. cbn [List.length] in Lr.
      destruct (N.eqb c' (ch "}")); intros H.
      - inversion H; subst. lia.
      - apply IHm in H. lia. }
    destruct (N.eqb c (ch "[")).
    { pose proof (skip_ws_length r) as Lr.
      destruct (skip_ws r) as [|c' r']; [discriminate|]. cbn [List.length] in Lr.
      destruct (N.eqb c' (ch "]")); intros H.
      - inversion H; subst. lia.
      - apply IHe in H. lia. }
    destruct (N.eqb c dquote).
    { destruct (parse_chars r) as [[str rest']|] eqn:E; [|discriminate].
      apply parse_chars_length in E. intros H. inversion H; subst. lia. }
    destruct (starts_with (js "true") (c :: r)).
    { intros H. apply literal_rest_length in H. cbn [List.length] in H. lia. }
    destruct (starts_with (js "false") (c :: r)).
    { intros H. apply literal_rest_length in H. cbn [List.length] in H. lia. }
    destruct (starts_with (js "null") (c :: r)).
    { intros H. apply literal_rest_length in H. cbn [List.length] in H. lia. }
    intros H. apply parse_number_length in H. cbn [List.length] in H. lia.
  - intros s acc v rest. cbn [parse_members].
    pose proof (skip_ws_length s) as Ls.
    destruct (skip_ws s) as [|c r]; [discriminate|]. cbn [List.length] in Ls.
    destruct (N.eqb c dquote); [|discriminate].
    destruct (parse_chars r) as [[key r1]|] eqn:E; [|discriminate].
    apply parse_chars_length in E.
    pose proof (skip_ws_length r1) as L1.
    destruct (skip_ws r1) as [|c1 r2]; [discriminate|]. cbn [List.length] in L1.
    destruct (N.eqb c1 (ch ":")); [|discriminate].
    destruct (parse_value n r2) as [[v' r3]|] eqn:Ev; [|discriminate].
    apply IHv in Ev.
    pose proof (skip_ws_length r3) as L3.
    destruct (skip_ws r3) as [|c3 r4]; [discriminate|]. cbn [List.length] in L3.
    destruct (N.eqb c3 (ch ",")).
    { intros H. apply IHm in H. lia. }
    destruct (N.eqb c3 (ch "}")); [|discriminate].
    intros H. inversion H; subst. lia.
  - intros s acc v rest. cbn [parse_elements].
    destruct (parse_value n s) as [[v' r1]|] eqn:Ev; [|discriminate].
    apply IHv in Ev.
    pose proof (skip_ws_length r1) as L1.
    destruct (skip_ws r1) as [|c r2]; [discriminate|]. cbn [List.length] in L1.
    destruct (N.eqb c (ch ",")).
    { intros H. apply IHe in H. lia. }
    destruct (N.eqb c (ch "]")); [|discriminate].
    intros H. inversion H; subst. lia.
Qed.

(** Above twice the length of the input, the fuel does not matter. *)
Lemma parse_fuel_stable (n : nat) :
  (forall s m, 2 * List.length s + 1 <= n -> n <= m ->
               parse_value m s = parse_value n s) /\
  (forall s acc m, 2 * List.length s + 1 <= n -> n <= m ->
                   parse_members m s acc = parse_members n s acc) /\
  (forall s acc m, 2 * List.length s + 2 <= n -> n <= m ->
                   parse_elements m s acc = parse_elements n s acc).
Proof.
  induction n as [|n (IHv & IHm & IHe)].
  { repeat split; intros; lia. }
  repeat split.
  - intros s [|m] Hn Hm; [lia|]. cbn [parse_value].
    pose proof (skip_ws_length s) as Ls.
    destruct (skip_ws s) as [|c r]; [reflexivity|]. cbn [List.length] in Ls.
    destruct (N.eqb c (ch "{")).
    { destruct (skip_ws r) as [|c' r']; [reflexivity|].
      destruct (N.eqb c' (ch "}")); [reflexivity|]. apply IHm; lia. }
    destruct (N.eqb c (ch "[")).
    { destruct (skip_ws r) as [|c' r']; [reflexivity|].
      destruct (N.eqb c' (ch "]")); [reflexivity|]. apply IHe; lia. }
    reflexivity.
  - intros s acc [|m] Hn Hm; [lia|]. cbn [parse_members].
    pose proof (skip_ws_length s) as Ls.
    destruct (skip_ws s) as [|c r]; [reflexivity|]. cbn [List.length] in Ls.
    destruct (N.eqb c dquote); [|reflexivity].
    destruct (parse_chars r) as [[key r1]|] eqn:E; [|reflexivity].
    apply parse_chars_length in E.
    pose proof (skip_ws_length r1) as L1.
    destruct (skip_ws r1) as [|c1 r2]; [reflexivity|]. cbn [List.length] in L1.
    destruct (N.eqb c1 (ch ":")); [|reflexivity].
    rewrite (IHv r2 m) by lia.
    destruct (parse_value n r2) as [[v' r3]|] eqn:Ev; [|reflexivity].
    apply (proj1 (parse_lengths n)) in Ev.
    pose proof (skip_ws_length r3) as L3.
    destruct (skip_ws r3) as [|c3 r4]; [reflexivity|]. cbn [List.length] in L3.
    destruct (N.eqb c3 (ch ",")); [|reflexivity].
    apply IHm; lia.
  - intros s acc [|m] Hn Hm; [lia|]. cbn [parse_elements].
    rewrite (IHv s m) by lia.
    destruct (parse_value n s) as [[v' r1]|] eqn:Ev; [|reflexivity].
    apply (proj1 (parse_lengths n)) in Ev.
    pose proof (skip_ws_length r1) as L1.
    destruct (skip_ws r1) as [|c r2]; [reflexivity|]. cbn [List.length] in L1.
    destruct (N.eqb c (ch ",")); [|reflexivity].
    apply IHe; lia.
Qed.

(** The fuel [JSON_parse] gives is enough: no larger fuel changes the
    answer, so [None] is a syntax error and never exhaustion. *)
Lemma parse_value_enough_fuel (text : jsstring) (fuel : nat) :
  2 * List.length text + 2 <= fuel ->
  parse_value fuel text = parse_value (2 * List.length text + 2) text.
Proof.
  intros H. apply (proj1 (parse_fuel_stable (2 * List.length text + 2))); lia.
Qed.

(* ================================================================== *)
(** * How the two functions run *)
(* ================================================================== *)

Lemma read_promise_settles (o : ReadOutcome) : read_promise o <> Pending.
Proof.
  destruct o as [[ev|] [s|b|]]; cbn; discriminate.
Qed.

(** The Encoder reads its file once and ends as the promise of that read
    dictates. *)
Lemma encoded_by_read (w : Platform) (f : File) :
  encoded w f
  = match read_promise (readAsDataURL w f) with
    | Fulfilled d =>
        Normal (InlinePart {| mimeType := FileApi.type f; data := d |})
    | Rejected e => Throw e
    | Pending => Suspended
    end.
Proof.
  unfold encoded, outcome, run, fileToGenerativePart, bind, emit, await, ret.
  destruct (read_promise (readAsDataURL w f)); reflexivity.
Qed.

Lemma fileToGenerativePart_run (w : Platform) (f : File) (tr : Trace) :
  fileToGenerativePart w f tr = (encoded w f, tr ++ [FileRead f]).
Proof.
  unfold encoded, outcome, run, fileToGenerativePart, bind, emit, await, ret.
  destruct (read_promise (readAsDataURL w f)); reflexivity.
Qed.

Lemma encoded_not_suspended (w : Platform) (f : File) : encoded w f <> Suspended.
Proof.
  rewrite encoded_by_read.
  pose proof (read_promise_settles (readAsDataURL w f)) as H.
  destruct (read_promise (readAsDataURL w f)); congruence.
Qed.

Lemma encoded_inline (w : Platform) (f : File) (p : Part) :
  encoded w f = Normal p ->
  exists d, p = InlinePart {| mimeType := FileApi.type f; data := d |}.
Proof.
  rewrite encoded_by_read.
  destruct (read_promise (readAsDataURL w f)) as [|d|e]; intros H;
    inversion H. exists d. reflexivity.
Qed.

(** Every run of [analyzeFights], with its trace. *)
Lemma analyzeFights_run (w : Platform)
    (fighterName opponentName weightClass : jsstring)
    (fighterVideo opponentVideo : File) :
  run (analyzeFights w fighterName opponentName weightClass
         fighterVideo opponentVideo)
  = match encoded w fighterVideo with
    | Normal p1 =>
        match encoded w opponentVideo with
        | Normal p2 =>
            let ai := {| apiKey := env_API_KEY w |} in
            let params := request fighterName opponentName weightClass p1 p2 in
            let tr := [FileRead fighterVideo; FileRead opponentVideo;
                       ProviderCall ai params] in
            match generateContent w ai params with
            | Fulfilled response =>
                let jsonString := trim (text response) in
                match JSON_parse jsonString with
                | Some v => (Normal v, tr)
                | None =>
                    (Throw AnalysisFormatError,
                     tr ++ [ConsoleError
                              [LogString (js "Failed to parse JSON response from Gemini:");
                               LogString jsonString;
                               LogThrown (ErrorObject (js "SyntaxError")
                                            (syntaxErrorMessage w jsonString))]])
                end
            | Rejected e => (Throw e, tr)
            | Pending => (Suspended, tr)
            end
        | Throw e => (Throw e, [FileRead fighterVideo; FileRead opponentVideo])
        | Suspended => (Suspended, [FileRead fighterVideo; FileRead opponentVideo])
        end
    | Throw e => (Throw e, [FileRead fighterVideo])
    | Suspended => (Suspended, [FileRead fighterVideo])
    end.
Proof.
  unfold run, analyzeFights, bind.
  rewrite fileToGenerativePart_run.
  destruct (encoded w fighterVideo) as [p1|e|]; try reflexivity.
  rewrite fileToGenerativePart_run.
  destruct (encoded w opponentVideo) as [p2|e|]; try reflexivity.
  cbn [app emit await].
  destruct (generateContent w _ _) as [|response|e]; try reflexivity.
  cbn [await]. unfold try_catch, bind, JSON_parse_or_throw.
  destruct (JSON_parse (trim (text response))); reflexivity.
Qed.

(** A provider call in the trace is the request built from the two encoded
    videos. *)
Lemma provider_call_is_request (w : Platform)
    (fighterName opponentName weightClass : jsstring)
    (fighterVideo opponentVideo : File) (params : GenerateContentParameters) :
  In params (provider_calls
               (effects (analyzeFights w fighterName opponentName weightClass
                           fighterVideo opponentVideo))) ->
  exists p1 p2,
    encoded w fighterVideo = Normal p1 /\
    encoded w opponentVideo = Normal p2 /\
    params = request fighterName opponentName weightClass p1 p2.
Proof.
  unfold effects. rewrite analyzeFights_run.
  destruct (encoded w fighterVideo) as [p1|e|]; cbn; try tauto.
  destruct (encoded w opponentVideo) as [p2|e|]; cbn; try tauto.
  intros H. exists p1, p2. split; [reflexivity|]. split; [reflexivity|].
  destruct (generateContent w _ _) as [|response|e]; cbn in H;
    try (destruct (JSON_parse (trim (text response))); cbn in H);
    destruct H as [H|[]]; symmetry; exact H.
Qed.

(** At most one provider call is made. *)
Lemma at_most_one_provider_call (w : Platform)
    (fighterName opponentName weightClass : jsstring)
    (fighterVideo opponentVideo : File) :
  List.length
    (provider_calls
       (effects (analyzeFights w fighterName opponentName weightClass
                   fighterVideo opponentVideo))) <= 1.
Proof.
  unfold effects. rewrite analyzeFights_run.
  destruct (encoded w fighterVideo) as [p1|e|]; cbn; try lia.
  destruct (encoded w opponentVideo) as [p2|e|]; cbn; try lia.
  destruct (generateContent w _ _) as [|response|e]; cbn; try lia.
  destruct (JSON_parse (trim (text response))); cbn; lia.
Qed.

(** With a read that follows the File API and a declared type without a
    comma, the Encoder's data decodes to the bytes of the file. *)
Lemma round_trip_without_comma (w : Platform) (f : File) :
  readAsDataURL w f = read_ok f ->
  includes (js ",") (FileApi.type f) = false ->
  round_trip w f.
Proof.
  intros Hread Hty. exists (Base64.encode (bytes f)). split.
  - rewrite encoded_by_read, Hread.
    cbn [read_promise read_ok FileApi.error result onloadend resolve].
    rewrite (split_data_url f Hty). reflexivity.
  - apply decode_encode.
Qed.

Lemma occurs_here (x s : jsstring) : occurs_in x (x ++ s).
Proof. exists [], s. reflexivity. Qed.

Lemma occurs_later (x p s : jsstring) : occurs_in x s -> occurs_in x (p ++ s).
Proof.
  intros (before & after & E). exists (p ++ before), after.
  rewrite E, app_assoc. reflexivity.
Qed.

Ltac find_occurrence :=
  unfold prompt; repeat first [apply occurs_here | apply occurs_later].

(* ================================================================== *)
(** * The Analysis Client *)
(* ================================================================== *)

(** C1, as amended: for every provider response whose trimmed text is
    syntactically valid JSON but lacks a required field of the Analysis
    Result shape, [analyzeFights] does not fail: it returns the parsed value
    as it is, so the partially-populated value reaches the caller. *)
Theorem incomplete_reply_is_returned (w : Platform)
    (fighterName opponentName weightClass : jsstring)
    (fighterVideo opponentVideo : File)
    (p1 p2 : Part) (response : GenerateContentResponse) (v : JSValue) :
  encoded w fighterVideo = Normal p1 ->
  encoded w opponentVideo = Normal p2 ->
  generateContent w {| apiKey := env_API_KEY w |}
    (request fighterName opponentName weightClass p1 p2)
  = Fulfilled response ->
  JSON_parse (trim (text response)) = Some v ->
  conforms_AnalysisResult v = false ->
  outcome (analyzeFights w fighterName opponentName weightClass
             fighterVideo opponentVideo)
  = Normal v.
Proof.
  intros H1 H2 Hr Hp _.
  unfold outcome. rewrite analyzeFights_run, H1, H2.
  cbn zeta. rewrite Hr, Hp. reflexivity.
Qed.

(** C3: for every provider response whose trimmed text is not syntactically
    valid JSON, [analyzeFights] throws the error with the fixed generic
    message, whatever the text and the parser's exception are; the trimmed
    text and the exception appear only in the [console.error] entry that
    ends the trace. *)
Theorem unparsable_reply_gives_fixed_error (w : Platform)
    (fighterName opponentName weightClass : jsstring)
    (fighterVideo opponentVideo : File)
    (p1 p2 : Part) (response : GenerateContentResponse) :
  encoded w fighterVideo = Normal p1 ->
  encoded w opponentVideo = Normal p2 ->
  generateContent w {| apiKey := env_API_KEY w |}
    (request fighterName opponentName weightClass p1 p2)
  = Fulfilled response ->
  JSON_parse (trim (text response)) = None ->
  run (analyzeFights w fighterName opponentName weightClass
         fighterVideo opponentVideo)
  = (Throw (new_Error (js "The analysis result from the AI was not in the expected format. Please try again.")),
     [ FileRead fighterVideo; FileRead opponentVideo;
       ProviderCall {| apiKey := env_API_KEY w |}
         (request fighterName opponentName weightClass p1 p2);
       ConsoleError
         [ LogString (js "Failed to parse JSON response from Gemini:");
           LogString (trim (text response));
           LogThrown (ErrorObject (js "SyntaxError")
                        (syntaxErrorMessage w (trim (text response)))) ] ]).
Proof.
  intros H1 H2 Hr Hp.
  rewrite analyzeFights_run, H1, H2.
  cbn zeta. rewrite Hr, Hp. reflexivity.
Qed.

(** C4: if the provider call is rejected with [e], [analyzeFights] throws
    exactly [e]; the trace holds the two file reads and that single provider
    call, so nothing is retried, logged or substituted. *)
Theorem provider_failure_propagates (w : Platform)
    (fighterName opponentName weightClass : jsstring)
    (fighterVideo opponentVideo : File) (p1 p2 : Part) (e : JsThrown) :
  encoded w fighterVideo = Normal p1 ->
  encoded w opponentVideo = Normal p2 ->
  generateContent w {| apiKey := env_API_KEY w |}
    (request fighterName opponentName weightClass p1 p2)
  = Rejected e ->
  run (analyzeFights w fighterName opponentName weightClass
         fighterVideo opponentVideo)
  = (Throw e,
     [ FileRead fighterVideo; FileRead opponentVideo;
       ProviderCall {| apiKey := env_API_KEY w |}
         (request fighterName opponentName weightClass p1 p2) ]).
Proof.
  intros H1 H2 Hr.
  rewrite analyzeFights_run, H1, H2.
  cbn zeta. rewrite Hr. reflexivity.
Qed.

(** C5: for any two files and any names and weight class, empty ones
    included, the first part of every request [analyzeFights] sends is the
    instruction text, and that text contains the fighter's name, the
    opponent's name and the weight-class label verbatim. *)
Theorem prompt_carries_names_and_class (w : Platform)
    (fighterName opponentName weightClass : jsstring)
    (fighterVideo opponentVideo : File) (params : GenerateContentParameters) :
  In params (provider_calls
               (effects (analyzeFights w fighterName opponentName weightClass
                           fighterVideo opponentVideo))) ->
  exists instruction rest,
    parts (contents params) = TextPart instruction :: rest /\
    instruction = prompt fighterName opponentName weightClass /\
    occurs_in fighterName instruction /\
    occurs_in opponentName instruction /\
    occurs_in weightClass instruction.
Proof.
  intros H. apply provider_call_is_request in H.
  destruct H as (p1 & p2 & _ & _ & ->).
  eexists. eexists. split; [reflexivity|]. split; [reflexivity|].
  repeat split; find_occurrence.
Qed.

(** C6: if encoding the fighter's video fails with [e], or it succeeds and
    encoding the opponent's video fails with [e], [analyzeFights] throws
    exactly [e] and no provider call is made. *)
Theorem encoding_failure_propagates (w : Platform)
    (fighterName opponentName weightClass : jsstring)
    (fighterVideo opponentVideo : File) (e : JsThrown) :
  encoded w fighterVideo = Throw e \/
  ((exists p1, encoded w fighterVideo = Normal p1) /\
   encoded w opponentVideo = Throw e) ->
  outcome (analyzeFights w fighterName opponentName weightClass
             fighterVideo opponentVideo) = Throw e /\
  provider_calls
    (effects (analyzeFights w fighterName opponentName weightClass
                fighterVideo opponentVideo)) = [].
Proof.
  unfold outcome, effects. rewrite analyzeFights_run.
  intros [H1|[[p1 H1] H2]].
  - rewrite H1. split; reflexivity.
  - rewrite H1, H2. split; reflexivity.
Qed.

(** A provider call is made only after both encodings have succeeded. *)
Lemma provider_called_after_both_encoded (w : Platform)
    (fighterName opponentName weightClass : jsstring)
    (fighterVideo opponentVideo : File) :
  provider_calls
    (effects (analyzeFights w fighterName opponentName weightClass
                fighterVideo opponentVideo)) <> [] ->
  exists p1 p2,
    encoded w fighterVideo = Normal p1 /\ encoded w opponentVideo = Normal p2.
Proof.
  intros H.
  destruct (provider_calls _) as [|params l] eqn:E; [congruence|].
  assert (In params (params :: l)) as HIn by (left; reflexivity).
  rewrite <- E in HIn. apply provider_call_is_request in HIn.
  destruct HIn as (p1 & p2 & H1 & H2 & _). exists p1, p2. tauto.
Qed.

(** C8: whenever [analyzeFights] completes with a value, both videos were
    encoded, the provider answered the request built from them, and the
    value is exactly what [JSON.parse] yields on the trimmed text of that
    answer. *)
Theorem result_is_parsed_trimmed_text (w : Platform)
    (fighterName opponentName weightClass : jsstring)
    (fighterVideo opponentVideo : File) (v : JSValue) :
  outcome (analyzeFights w fighterName opponentName weightClass
             fighterVideo opponentVideo) = Normal v ->
  exists p1 p2 response,
    encoded w fighterVideo = Normal p1 /\
    encoded w opponentVideo = Normal p2 /\
    generateContent w {| apiKey := env_API_KEY w |}
      (request fighterName opponentName weightClass p1 p2)
    = Fulfilled response /\
    JSON_parse (trim (text response)) = Some v.
Proof.
  unfold outcome. rewrite analyzeFights_run.
  destruct (encoded w fighterVideo) as [p1|e|]; try discriminate.
  destruct (encoded w opponentVideo) as [p2|e|]; try discriminate.
  cbn zeta.
  destruct (generateContent w _ _) as [|response|e] eqn:Hr; try discriminate.
  destruct (JSON_parse (trim (text response))) as [v'|] eqn:Hp;
    cbn [fst]; intros H; inversion H; subst.
  exists p1, p2, response. repeat split; assumption.
Qed.

(** C10: every request [analyzeFights] sends names the model
    [gemini-2.5-flash] and has exactly five parts in this order: the
    instruction text, the fighter-video label, the encoded fighter video, the
    opponent-video label and the encoded opponent video. *)
Theorem request_model_and_parts (w : Platform)
    (fighterName opponentName weightClass : jsstring)
    (fighterVideo opponentVideo : File) (params : GenerateContentParameters) :
  In params (provider_calls
               (effects (analyzeFights w fighterName opponentName weightClass
                           fighterVideo opponentVideo))) ->
  model params = js "gemini-2.5-flash" /\
  exists d1 d2,
    let fighterVideoPart :=
      InlinePart {| mimeType := FileApi.type fighterVideo; data := d1 |} in
    let opponentVideoPart :=
      InlinePart {| mimeType := FileApi.type opponentVideo; data := d2 |} in
    encoded w fighterVideo = Normal fighterVideoPart /\
    encoded w opponentVideo = Normal opponentVideoPart /\
    parts (contents params)
    = [ TextPart (prompt fighterName opponentName weightClass);
        TextPart (10 :: 10 :: js "Fighter Video (" ++ fighterName ++ js "):")%N;
        fighterVideoPart;
        TextPart (10 :: 10 :: js "Opponent Video (" ++ opponentName ++ js "):")%N;
        opponentVideoPart ].
Proof.
  intros H. apply provider_call_is_request in H.
  destruct H as (p1 & p2 & H1 & H2 & ->).
  split; [reflexivity|].
  destruct (encoded_inline _ _ _ H1) as [d1 ->].
  destruct (encoded_inline _ _ _ H2) as [d2 ->].
  exists d1, d2. cbn zeta. repeat split; assumption || reflexivity.
Qed.

Lemma incomplete_reply_is_returned_witness :
  exists v,
    JSON_parse (trim reply_without_confidence) = Some v /\
    conforms_AnalysisResult v = false /\
    outcome (analyzeFights (replying reply_without_confidence)
               jones smith heavyweight mp4_clip mov_clip)
    = Normal v.
Proof.
  eexists. split; [vm_compute; reflexivity|]. split; [vm_compute; reflexivity|].
  apply (incomplete_reply_is_returned (replying reply_without_confidence)
           jones smith heavyweight mp4_clip mov_clip
           (payload_of mp4_clip) (payload_of mov_clip)
           {| text := reply_without_confidence |} _);
    vm_compute; reflexivity.
Defined.

(** C1 fails on the code: a reply that is valid JSON but has no
    [headToHead.confidence] does not make [analyzeFights] throw. *)
Lemma missing_confidence_not_rejected :
  ~ Claimed.fails_on_missing_field (replying reply_without_confidence)
      jones smith heavyweight mp4_clip mov_clip.
Proof.
  intros H.
  assert (exists v,
             JSON_parse (trim reply_without_confidence) = Some v /\
             conforms_AnalysisResult v = false /\
             outcome (analyzeFights (replying reply_without_confidence)
                        jones smith heavyweight mp4_clip mov_clip)
             = Normal v) as (v & Hp & Hc & Ho).
  { eexists. repeat split; vm_compute; reflexivity. }
  specialize (H (payload_of mp4_clip) (payload_of mov_clip)
                {| text := reply_without_confidence |} v).
  rewrite Ho in H.
  assert (Normal v = Throw AnalysisFormatError) as Habs.
  { apply H; try assumption; vm_compute; reflexivity. }
  discriminate Habs.
Qed.

Lemma unparsable_reply_gives_fixed_error_witness :
  JSON_parse (trim truncated_reply) = None /\
  run (analyzeFights (replying truncated_reply)
         jones smith heavyweight mp4_clip mov_clip)
  = (Throw (new_Error (js "The analysis result from the AI was not in the expected format. Please try again.")),
     [ FileRead mp4_clip; FileRead mov_clip;
       ProviderCall {| apiKey := Some (js "test-key") |}
         (request jones smith heavyweight
            (payload_of mp4_clip) (payload_of mov_clip));
       ConsoleError
         [ LogString (js "Failed to parse JSON response from Gemini:");
           LogString (trim truncated_reply);
           LogThrown (ErrorObject (js "SyntaxError")
                        (js "Unexpected end of JSON input")) ] ]).
Proof.
  split; [vm_compute; reflexivity|].
  apply (unparsable_reply_gives_fixed_error (replying truncated_reply)
           jones smith heavyweight mp4_clip mov_clip
           (payload_of mp4_clip) (payload_of mov_clip)
           {| text := truncated_reply |});
    vm_compute; reflexivity.
Defined.

Lemma provider_failure_propagates_witness :
  run (analyzeFights (stub (Rejected network_failure))
         jones smith heavyweight mp4_clip mov_clip)
  = (Throw network_failure,
     [ FileRead mp4_clip; FileRead mov_clip;
       ProviderCall {| apiKey := Some (js "test-key") |}
         (request jones smith heavyweight
            (payload_of mp4_clip) (payload_of mov_clip)) ]).
Proof.
  apply (provider_failure_propagates (stub (Rejected network_failure))
           jones smith heavyweight mp4_clip mov_clip
           (payload_of mp4_clip) (payload_of mov_clip) _);
    vm_compute; reflexivity.
Defined.

Lemma prompt_carries_names_and_class_witness :
  let params := request jones smith heavyweight
                  (payload_of mp4_clip) (payload_of mov_clip) in
  In params (provider_calls
               (effects (analyzeFights (replying conforming_reply)
                           jones smith heavyweight mp4_clip mov_clip))) /\
  exists instruction rest,
    parts (contents params) = TextPart instruction :: rest /\
    instruction = prompt jones smith heavyweight /\
    occurs_in jones instruction /\
    occurs_in smith instruction /\
    occurs_in heavyweight instruction.
Proof.
  cbn zeta.
  assert (In (request jones smith heavyweight
                (payload_of mp4_clip) (payload_of mov_clip))
             (provider_calls
                (effects (analyzeFights (replying conforming_reply)
                            jones smith heavyweight mp4_clip mov_clip)))) as H.
  { vm_compute. left. reflexivity. }
  split; [exact H|].
  exact (prompt_carries_names_and_class (replying conforming_reply)
           jones smith heavyweight mp4_clip mov_clip _ H).
Defined.

Lemma encoding_failure_propagates_witness :
  encoded quicktime_unreadable mp4_clip = Normal (payload_of mp4_clip) /\
  encoded quicktime_unreadable mov_clip = Throw (EventValue read_error) /\
  outcome (analyzeFights quicktime_unreadable
             jones smith heavyweight mp4_clip mov_clip)
  = Throw (EventValue read_error) /\
  provider_calls
    (effects (analyzeFights quicktime_unreadable
                jones smith heavyweight mp4_clip mov_clip)) = [].
Proof.
  split; [vm_compute; reflexivity|]. split; [vm_compute; reflexivity|].
  apply (encoding_failure_propagates quicktime_unreadable
           jones smith heavyweight mp4_clip mov_clip).
  right. split; [exists (payload_of mp4_clip)|]; vm_compute; reflexivity.
Defined.

Lemma result_is_parsed_trimmed_text_witness :
  exists v,
    outcome (analyzeFights (replying conforming_reply)
               jones smith heavyweight mp4_clip mov_clip) = Normal v /\
    conforms_AnalysisResult v = true /\
    exists p1 p2 response,
      encoded (replying conforming_reply) mp4_clip = Normal p1 /\
      encoded (replying conforming_reply) mov_clip = Normal p2 /\
      generateContent (replying conforming_reply)
        {| apiKey := env_API_KEY (replying conforming_reply) |}
        (request jones smith heavyweight p1 p2)
      = Fulfilled response /\
      JSON_parse (trim (text response)) = Some v.
Proof.
  eexists. split; [vm_compute; reflexivity|]. split; [vm_compute; reflexivity|].
  apply (result_is_parsed_trimmed_text (replying conforming_reply)
           jones smith heavyweight mp4_clip mov_clip).
  vm_compute. reflexivity.
Defined.

Lemma request_model_and_parts_witness :
  let params := request jones smith heavyweight
                  (payload_of mp4_clip) (payload_of mov_clip) in
  In params (provider_calls
               (effects (analyzeFights (stub (Rejected network_failure))
                           jones smith heavyweight mp4_clip mov_clip))) /\
  model params = js "gemini-2.5-flash" /\
  exists d1 d2,
    let fighterVideoPart :=
      InlinePart {| mimeType := FileApi.type mp4_clip; data := d1 |} in
    let opponentVideoPart :=
      InlinePart {| mimeType := FileApi.type mov_clip; data := d2 |} in
    encoded (stub (Rejected network_failure)) mp4_clip = Normal fighterVideoPart /\
    encoded (stub (Rejected network_failure)) mov_clip = Normal opponentVideoPart /\
    parts (contents params)
    = [ TextPart (prompt jones smith heavyweight);
        TextPart (10 :: 10 :: js "Fighter Video (" ++ jones ++ js "):")%N;
        fighterVideoPart;
        TextPart (10 :: 10 :: js "Opponent Video (" ++ smith ++ js "):")%N;
        opponentVideoPart ].
Proof.
  cbn zeta.
  assert (In (request jones smith heavyweight
                (payload_of mp4_clip) (payload_of mov_clip))
             (provider_calls
                (effects (analyzeFights (stub (Rejected network_failure))
                            jones smith heavyweight mp4_clip mov_clip)))) as H.
  { vm_compute. left. reflexivity. }
  split; [exact H|].
  exact (request_model_and_parts (stub (Rejected network_failure))
           jones smith heavyweight mp4_clip mov_clip _ H).
Defined.

(* ================================================================== *)
(** * The Encoder *)
(* ================================================================== *)

(** C2 fails on the code for a file whose declared type holds a comma.  The
    clip reads as the File API prescribes, the payload keeps its declared
    type, but its data is the text between the first two commas of the data
    URL, which is not base64 and does not decode to the clip's bytes. *)
Theorem recorded_clip_data_is_not_its_bytes :
  readAsDataURL (stub Pending) webm_clip = read_ok webm_clip /\
  encoded (stub Pending) webm_clip
  = Normal (InlinePart {| mimeType := js "video/webm;codecs=vp8,opus";
                          data := Some (js "opus;base64") |}) /\
  Base64.decode (js "opus;base64") = None /\
  ~ round_trip (stub Pending) webm_clip.
Proof.
  split; [reflexivity|]. split; [vm_compute; reflexivity|].
  split; [vm_compute; reflexivity|].
  intros (d & He & Hd).
  assert (encoded (stub Pending) webm_clip
          = Normal (InlinePart {| mimeType := js "video/webm;codecs=vp8,opus";
                                  data := Some (js "opus;base64") |})) as E
    by (vm_compute; reflexivity).
  rewrite E in He. inversion He; subst d.
  vm_compute in Hd. discriminate Hd.
Qed.

(** A second input on which the Encoder misses its contract: a read that
    ends without error but whose result text holds no base64 data is not
    rejected. *)
Lemma bare_result_not_rejected :
  ~ Claimed.fails_exactly_on_bad_read bare_reader empty_clip.
Proof.
  intros [[_ Hfail] _].
  destruct Hfail as (e & He & _).
  - right. vm_compute. reflexivity.
  - vm_compute in He. discriminate He.
Qed.

(** What the Encoder returns for the empty clip on that reader: a payload
    without data. *)
Example bare_result_payload :
  encoded bare_reader empty_clip
  = Normal (InlinePart {| mimeType := js "video/mp4"; data := None |}).
Proof. vm_compute. reflexivity. Qed.

(** The value [analyzeFights] returns for the reply without
    [headToHead.confidence] has a head-to-head with a prediction only. *)
Example incomplete_result_head_to_head :
  exists v,
    outcome (analyzeFights (replying reply_without_confidence)
               jones smith heavyweight mp4_clip mov_clip) = Normal v /\
    get "headToHead" v
    = Some (JObject [(js "prediction", JString (js "Jones by decision"))]).
Proof. eexists. split; vm_compute; reflexivity. Qed.

(** When the Encoder fails: exactly when the read fires its error event or
    the read result is not a string, and then with an [EncodingError]; in
    every other case it resolves with an inline part that carries the
    declared type. *)
Lemma encoder_failure_condition (w : Platform) (file : File) :
  ((exists e, encoded w file = Throw e)
   <-> (FileApi.error (readAsDataURL w file) <> None \/
        forall s, result (readAsDataURL w file) <> ResultString s)) /\
  (forall e, encoded w file = Throw e -> EncodingError e) /\
  ((forall e, encoded w file <> Throw e) ->
   exists d,
     encoded w file
     = Normal (InlinePart {| mimeType := FileApi.type file; data := d |})).
Proof.
  split; [|split].
  - rewrite encoded_by_read.
    destruct (readAsDataURL w file) as [[ev|] [s|b|]]; cbn; split;
      try (intros _; eexists; reflexivity);
      try (intros _; left; discriminate);
      try (intros _; right; intros s'; discriminate);
      try (intros [e He]; discriminate He).
    intros [H|H]; [congruence|]. exfalso. exact (H s eq_refl).
  - intros e. rewrite encoded_by_read.
    destruct (readAsDataURL w file) as [[ev|] [s|b|]]; cbn;
      intros H; inversion H; constructor.
  - intros Hno. pose proof (encoded_not_suspended w file) as Hs.
    destruct (encoded w file) as [p|e|] eqn:E.
    + destruct (encoded_inline _ _ _ E) as [d ->]. exists d. reflexivity.
    + exfalso. exact (Hno e eq_refl).
    + congruence.
Qed.

(** A read that ends without error with a result of the expected form, a
    header and after the single comma valid base64, gives a well-formed
    payload. *)
Lemma base64_text_payload_well_formed (w : Platform) (file : File) :
  FileApi.error (readAsDataURL w file) = None ->
  is_base64_text (result (readAsDataURL w file)) = true ->
  exists p, encoded w file = Normal p /\ well_formed_payload file p.
Proof.
  rewrite encoded_by_read.
  destruct (readAsDataURL w file) as [err [s|b|]]; cbn [FileApi.error result];
    intros -> H; try discriminate H.
  cbn [is_base64_text] in H.
  cbn [read_promise FileApi.error result onloadend resolve].
  destruct (split (ch ",") s) as [|header [|payload [|more rest]]];
    try discriminate H.
  destruct (Base64.decode payload) as [bs|] eqn:D; [|discriminate H].
  eexists. split; [reflexivity|].
  exists payload, bs. split; [reflexivity|exact D].
Qed.

(** C7 fails on the code for a file whose declared type holds a comma.  The
    clip is read without error and its result is the clip's data URL, yet
    the Encoder neither fails nor resolves with a well-formed payload: the
    data it returns is the text between the first two commas of the data
    URL, which is not base64. *)
Theorem recorded_clip_neither_rejected_nor_well_formed :
  readAsDataURL (stub Pending) webm_clip = read_ok webm_clip /\
  encoded (stub Pending) webm_clip
  = Normal (InlinePart {| mimeType := js "video/webm;codecs=vp8,opus";
                          data := Some (js "opus;base64") |}) /\
  (forall e, encoded (stub Pending) webm_clip <> Throw e) /\
  (forall p, encoded (stub Pending) webm_clip = Normal p ->
             ~ well_formed_payload webm_clip p) /\
  ~ Claimed.fails_exactly_on_bad_read (stub Pending) webm_clip.
Proof.
  assert (encoded (stub Pending) webm_clip
          = Normal (InlinePart {| mimeType := js "video/webm;codecs=vp8,opus";
                                  data := Some (js "opus;base64") |})) as E
    by (vm_compute; reflexivity).
  split; [reflexivity|]. split; [exact E|]. split; [|split].
  - intros e H. rewrite E in H. discriminate H.
  - intros p H (d & bs & Hp & Hd). rewrite E in H.
    injection H as Hq. rewrite <- Hq in Hp.
    apply (f_equal (fun q => match q with
                             | InlinePart i => data i
                             | TextPart _ => None
                             end)) in Hp.
    cbn [data] in Hp. injection Hp as Hdata. rewrite <- Hdata in Hd.
    vm_compute in Hd. discriminate Hd.
  - intros [[_ Hfail] _].
    destruct Hfail as (e & He & _).
    + right. vm_compute. reflexivity.
    + rewrite E in He. discriminate He.
Qed.

(* ================================================================== *)
(** * What the response schema admits *)
(* ================================================================== *)

Import SchemaMeaning.

Lemma satisfies_string_schema (description : string) (v : JSValue) :
  satisfies (string_schema description) v = is_string v.
Proof. destruct v; reflexivity. Qed.

Lemma satisfies_number_schema (description : string) (v : JSValue) :
  satisfies (number_schema description) v = is_number v.
Proof. destruct v; reflexivity. Qed.

Lemma satisfies_string_array_schema (description : string) (v : JSValue) :
  satisfies (string_array_schema description) v = is_string_array v.
Proof.
  destruct v; reflexivity.
Qed.

Ltac split_members :=
  repeat match goal with
         | |- context [get_member ?k ?m] =>
             let x := fresh "x" in destruct (get_member k m) as [x|]
         end.

Ltac split_checks :=
  repeat match goal with
         | |- context [is_string_array ?x] => destruct (is_string_array x)
         | |- context [is_string ?x] => destruct (is_string x)
         | |- context [is_number ?x] => destruct (is_number x)
         end.

Lemma satisfies_profile_schema (description : option jsstring) (v : JSValue) :
  satisfies
    (object_schema description
       [ (js "strengths", string_array_schema "List of strengths.");
         (js "fightingPattern", string_array_schema "List of fighting patterns.");
         (js "fightingHabits", string_array_schema "List of fighting habits.");
         (js "weaknesses", string_array_schema "List of weaknesses.");
         (js "fightingStyle", string_schema "Description of fighting style.") ])
    v
  = admits_FighterProfile v.
Proof.
  destruct v; try reflexivity.
  unfold admits_FighterProfile, has_if_present, get, is_object, object_schema.
  cbn [satisfies andb].
  split_members;
    rewrite ?satisfies_string_array_schema, ?satisfies_string_schema;
    split_checks; reflexivity.
Qed.

Lemma satisfies_head_to_head_schema (description : option jsstring)
    (v : JSValue) :
  satisfies
    (object_schema description
       [ (js "prediction", string_schema "Prediction for the fight outcome.");
         (js "confidence",
          number_schema "Confidence score in the prediction, from 0 to 100.") ])
    v
  = admits_HeadToHead v.
Proof.
  destruct v; try reflexivity.
  unfold admits_HeadToHead, has_if_present, get, is_object, object_schema.
  cbn [satisfies andb].
  split_members;
    rewrite ?satisfies_number_schema, ?satisfies_string_schema;
    split_checks; reflexivity.
Qed.

Lemma satisfies_game_plan_schema (description : option jsstring) (v : JSValue) :
  satisfies
    (object_schema description
       [ (js "strategy", string_schema "Overall strategy for the fighter.");
         (js "keyTactics", string_array_schema "Specific tactics to employ.");
         (js "drills", string_array_schema "Drills to practice for preparation.") ])
    v
  = admits_GamePlan v.
Proof.
  destruct v; try reflexivity.
  unfold admits_GamePlan, has_if_present, get, is_object, object_schema.
  cbn [satisfies andb].
  split_members;
    rewrite ?satisfies_string_array_schema, ?satisfies_string_schema;
    split_checks; reflexivity.
Qed.

(** A value satisfies the response schema exactly when it is an object in
    which every substructure and property of the data model that is present
    has the declared type. *)
Lemma satisfies_responseSchema (fighterName opponentName : jsstring)
    (v : JSValue) :
  satisfies (GeminiService.responseSchema fighterName opponentName) v
  = admits_AnalysisResult v.
Proof.
  destruct v; try reflexivity.
  unfold admits_AnalysisResult, has_if_present, get, is_object.
  unfold GeminiService.responseSchema.
  unfold object_schema at 1.
  cbn [satisfies andb].
  split_members;
    rewrite ?satisfies_profile_schema, ?satisfies_head_to_head_schema,
      ?satisfies_game_plan_schema;
    repeat match goal with
           | |- context [admits_FighterProfile ?x] =>
               destruct (admits_FighterProfile x)
           | |- context [admits_HeadToHead ?x] => destruct (admits_HeadToHead x)
           | |- context [admits_GamePlan ?x] => destruct (admits_GamePlan x)
           end;
    reflexivity.
Qed.

Lemma has_gives_if_present (key : string) (check check' : JSValue -> bool)
    (v : JSValue) :
  (forall x, check x = true -> check' x = true) ->
  has key check v = true -> has_if_present key check' v = true.
Proof.
  unfold has, has_if_present. intros Himp.
  destruct (get key v) as [x|]; [apply Himp|discriminate].
Qed.

Lemma has_is_object (key : string) (check : JSValue -> bool) (v : JSValue) :
  has key check v = true -> is_object v = true.
Proof.
  unfold has, get. destruct v; try discriminate. reflexivity.
Qed.

Ltac conforming_parts H :=
  repeat (apply andb_prop in H;
          let H' := fresh "H" in destruct H as [H H']).

Lemma conforming_profile_admitted (v : JSValue) :
  conforms_FighterProfile v = true -> admits_FighterProfile v = true.
Proof.
  unfold conforms_FighterProfile, admits_FighterProfile. intros H.
  conforming_parts H.
  rewrite (has_is_object _ _ _ H).
  rewrite !(has_gives_if_present _ _ _ _ (fun x Hx => Hx)) by assumption.
  reflexivity.
Qed.

Lemma conforming_head_to_head_admitted (v : JSValue) :
  conforms_HeadToHead v = true -> admits_HeadToHead v = true.
Proof.
  unfold conforms_HeadToHead, admits_HeadToHead. intros H.
  conforming_parts H.
  rewrite (has_is_object _ _ _ H).
  rewrite !(has_gives_if_present _ _ _ _ (fun x Hx => Hx)) by assumption.
  reflexivity.
Qed.

Lemma conforming_game_plan_admitted (v : JSValue) :
  conforms_GamePlan v = true -> admits_GamePlan v = true.
Proof.
  unfold conforms_GamePlan, admits_GamePlan. intros H.
  conforming_parts H.
  rewrite (has_is_object _ _ _ H).
  rewrite !(has_gives_if_present _ _ _ _ (fun x Hx => Hx)) by assumption.
  reflexivity.
Qed.

Lemma conforming_result_admitted (v : JSValue) :
  conforms_AnalysisResult v = true -> admits_AnalysisResult v = true.
Proof.
  unfold conforms_AnalysisResult, admits_AnalysisResult. intros H.
  conforming_parts H.
  rewrite (has_is_object _ _ _ H).
  rewrite (has_gives_if_present _ _ _ _ conforming_profile_admitted H).
  rewrite (has_gives_if_present "opponentAnalysis" _ _ _
             conforming_profile_admitted) by assumption.
  rewrite (has_gives_if_present "headToHead" _ _ _
             conforming_head_to_head_admitted) by assumption.
  rewrite (has_gives_if_present "recommendedGamePlan" _ _ _
             conforming_game_plan_admitted) by assumption.
  reflexivity.
Qed.

(** C9 fails on the code: the declaration lists no required property, so
    the empty object satisfies it without any of the four substructures. *)
Lemma empty_object_satisfies_schema :
  ~ schema_requires_data_model jones smith.
Proof.
  intros H. specialize (H (JObject []) eq_refl). discriminate H.
Qed.

(** C9, as amended: the schema attached to every request [analyzeFights]
    sends, beside the response media type [application/json], declares an
    object with exactly the four substructures of the data model, each with
    exactly the data model's field names and types; a reply satisfies it
    exactly when it is an object in which every one of these substructures
    and fields that is present has the declared type, so every complete
    reply of the data model satisfies it, and so does a reply that omits
    fields or substructures. *)
Theorem request_schema_types_present_fields (w : Platform)
    (fighterName opponentName weightClass : jsstring)
    (fighterVideo opponentVideo : File) (params : GenerateContentParameters) :
  In params (provider_calls
               (effects (analyzeFights w fighterName opponentName weightClass
                           fighterVideo opponentVideo))) ->
  responseMimeType (config params) = js "application/json" /\
  (exists declared,
      shape_of (GenAI.responseSchema (config params)) = Some declared /\
      same_shape declared AnalysisResult_shape = true) /\
  (forall v,
      satisfies (GenAI.responseSchema (config params)) v
      = admits_AnalysisResult v) /\
  (forall v,
      conforms_AnalysisResult v = true ->
      satisfies (GenAI.responseSchema (config params)) v = true).
Proof.
  intros H. apply provider_call_is_request in H.
  destruct H as (p1 & p2 & _ & _ & ->).
  split; [reflexivity|]. split; [|split].
  - eexists. split; [reflexivity|]. vm_compute. reflexivity.
  - intros v. apply satisfies_responseSchema.
  - intros v Hc. cbn [config request GenAI.responseSchema].
    rewrite satisfies_responseSchema. apply conforming_result_admitted. exact Hc.
Qed.

Lemma request_schema_types_present_fields_witness :
  let params := request jones smith heavyweight
                  (payload_of mp4_clip) (payload_of mov_clip) in
  In params (provider_calls
               (effects (analyzeFights (replying conforming_reply)
                           jones smith heavyweight mp4_clip mov_clip))) /\
  responseMimeType (config params) = js "application/json" /\
  (exists declared,
      shape_of (GenAI.responseSchema (config params)) = Some declared /\
      same_shape declared AnalysisResult_shape = true) /\
  (forall v,
      satisfies (GenAI.responseSchema (config params)) v
      = admits_AnalysisResult v) /\
  (forall v,
      conforms_AnalysisResult v = true ->
      satisfies (GenAI.responseSchema (config params)) v = true).
Proof.
  cbn zeta.
  assert (In (request jones smith heavyweight
                (payload_of mp4_clip) (payload_of mov_clip))
             (provider_calls
                (effects (analyzeFights (replying conforming_reply)
                            jones smith heavyweight mp4_clip mov_clip)))) as H.
  { vm_compute. left. reflexivity. }
  split; [exact H|].
  exact (request_schema_types_present_fields (replying conforming_reply)
           jones smith heavyweight mp4_clip mov_clip _ H).
Defined.

(** The replies of the scenarios against the schema: the conforming reply
    and the reply without [headToHead.confidence] both satisfy it; a reply
    whose confidence is a string does not. *)
Example replies_against_schema :
  option_map (satisfies (GeminiService.responseSchema jones smith))
    (JSON_parse (trim conforming_reply)) = Some true /\
  option_map (satisfies (GeminiService.responseSchema jones smith))
    (JSON_parse (trim reply_without_confidence)) = Some true /\
  option_map (satisfies (GeminiService.responseSchema jones smith))
    (JSON_parse
       (object_text
          [member "headToHead"
             (object_text [member "confidence" (js_quoted "high")])]))
  = Some false.
Proof. repeat split; vm_compute; reflexivity. Qed.

(* ================================================================== *)
(** * More on the Encoder *)
(* ================================================================== *)

Import MoreScenarios.

Lemma hd_split_prepend (c : code_unit) (l : list jsstring) :
  hd [] (match l with
         | [] => [[c]]
         | piece :: pieces => (c :: piece) :: pieces
         end)
  = c :: hd [] l.
Proof. destruct l; reflexivity. Qed.

(** The first piece of a split ends at the first separator, whatever comes
    after it. *)
Lemma hd_split_before_separator (sep : code_unit) (u v : jsstring) :
  hd [] (split sep (u ++ sep :: v)) = hd [] (split sep (u ++ [sep])).
Proof.
  induction u as [|c r IH]; cbn [app split].
  - rewrite N.eqb_refl. reflexivity.
  - destruct (N.eqb c sep); [reflexivity|].
    rewrite !hd_split_prepend, IH. reflexivity.
Qed.

Lemma split_nonempty (sep : code_unit) (s : jsstring) : split sep s <> [].
Proof.
  destruct s as [|c r]; cbn [split]; [discriminate|].
  destruct (N.eqb c sep); [discriminate|].
  destruct (split sep r); discriminate.
Qed.

Lemma nth_error_1_hd (x : jsstring) (l : list jsstring) :
  l <> [] -> nth_error (x :: l) 1 = Some (hd [] l).
Proof. destruct l; [congruence|reflexivity]. Qed.

Lemma includes_one_true (c : code_unit) (s : jsstring) :
  includes [c] s = true -> exists a b, s = a ++ c :: b /\ ~ In c a.
Proof.
  induction s as [|d r IH]; cbn [includes starts_with]; intros H.
  - discriminate.
  - rewrite andb_true_r in H.
    destruct (N.eqb_spec c d) as [E|E].
    + exists [], r. split; [subst; reflexivity|tauto].
    + cbn [orb] in H. destruct (IH H) as (a & b & -> & Hn).
      exists (d :: a), b. split; [reflexivity|].
      intros [E'|HIn]; [congruence|tauto].
Qed.

(** With a comma in the declared type, the second piece of the data URL is
    cut from the type and the base64 marker alone. *)
Lemma comma_type_second_piece (f : File) (a b : jsstring) :
  FileApi.type f = a ++ ch "," :: b -> ~ In (ch ",") a ->
  nth_error (split (ch ",") (data_url f)) 1
  = Some (hd [] (split (ch ",") ((b ++ js ";base64") ++ [ch ","]))).
Proof.
  intros Ht Ha. unfold data_url. rewrite Ht.
  change (js ";base64,") with (js ";base64" ++ [ch ","]).
  replace (js "data:" ++ (a ++ ch "," :: b) ++ (js ";base64" ++ [ch ","])
           ++ Base64.encode (bytes f))
    with ((js "data:" ++ a)
          ++ ch "," :: ((b ++ js ";base64") ++ ch "," :: Base64.encode (bytes f))).
  2: { rewrite <- ?app_assoc. cbn [app]. rewrite <- ?app_assoc. reflexivity. }
  rewrite split_at_first_separator.
  - rewrite nth_error_1_hd by apply split_nonempty.
    rewrite hd_split_before_separator. reflexivity.
  - intros HIn. apply in_app_or in HIn. destruct HIn as [HIn|HIn]; [|tauto].
    cbn in HIn. intuition discriminate.
Qed.

(** X2: the promise of a read is rejected with the reader's error event
    whenever one was fired, whatever the result holds; without one, a result
    that is not a string rejects it with the fixed [Error]. *)
Theorem read_rejection_reason (w : Platform) (file : File) :
  (forall ev, FileApi.error (readAsDataURL w file) = Some ev ->
              encoded w file = Throw (EventValue ev)) /\
  (FileApi.error (readAsDataURL w file) = None ->
   (forall s, result (readAsDataURL w file) <> ResultString s) ->
   encoded w file
   = Throw (new_Error (js "Failed to read file as base64 string."))).
Proof.
  rewrite encoded_by_read.
  destruct (readAsDataURL w file) as [[ev|] [s|b|]]; cbn; split;
    try (intros ev' H; inversion H; subst; reflexivity);
    try (intros ev' H; discriminate H);
    try (intros H; discriminate H);
    try (intros _ _; reflexivity).
  intros _ H. exfalso. exact (H s eq_refl).
Qed.

(** X3: for a file read as the File API prescribes whose declared type holds
    no comma, the payload carries the declared type and data that
    base64-decodes to exactly the bytes of the file. *)
Theorem encoder_round_trip (w : Platform) (file : File) :
  readAsDataURL w file = read_ok file ->
  includes (js ",") (FileApi.type file) = false ->
  exists d,
    encoded w file
    = Normal (InlinePart {| mimeType := FileApi.type file; data := Some d |}) /\
    Base64.decode d = Some (bytes file).
Proof. intros Hr Ht. exact (round_trip_without_comma w file Hr Ht). Qed.

(** X4: with a comma in the declared type, the payload does not depend on
    the content: two files of that type get the same payload. *)
Theorem comma_type_payload_ignores_content (w : Platform) (f g : File) :
  readAsDataURL w f = read_ok f ->
  readAsDataURL w g = read_ok g ->
  FileApi.type f = FileApi.type g ->
  includes (js ",") (FileApi.type f) = true ->
  encoded w f = encoded w g.
Proof.
  intros Hf Hg Ht Hc.
  destruct (includes_one_true _ _ Hc) as (a & b & Ea & Ha).
  rewrite !encoded_by_read, Hf, Hg.
  cbn [read_promise read_ok FileApi.error result onloadend resolve].
  rewrite (comma_type_second_piece f a b Ea Ha).
  rewrite (comma_type_second_piece g a b) by (try rewrite <- Ht; assumption).
  rewrite Ht. reflexivity.
Qed.

(* ================================================================== *)
(** * More on the Analysis Client *)
(* ================================================================== *)

Lemma trimStart_all_space (p : jsstring) :
  forallb is_trim_space p = true -> trimStart p = [].
Proof.
  induction p as [|c r IH]; cbn [forallb trimStart]; [reflexivity|].
  intros H. apply andb_prop in H. destruct H as [-> H]. exact (IH H).
Qed.

Lemma trimStart_after_space (p s : jsstring) :
  forallb is_trim_space p = true -> trimStart (p ++ s) = trimStart s.
Proof.
  induction p as [|c r IH]; cbn [forallb trimStart app]; [reflexivity|].
  intros H. apply andb_prop in H. destruct H as [-> H]. exact (IH H).
Qed.

Lemma trimStart_before_space (t p : jsstring) :
  forallb is_trim_space p = true ->
  trimStart (t ++ p)
  = match trimStart t with
    | [] => []
    | _ :: _ => trimStart t ++ p
    end.
Proof.
  intros H. induction t as [|c r IH]; cbn [trimStart app].
  - apply trimStart_all_space. exact H.
  - destruct (is_trim_space c); [exact IH|reflexivity].
Qed.

Lemma forallb_rev (A : Type) (f : A -> bool) (l : list A) :
  forallb f l = true -> forallb f (rev l) = true.
Proof.
  rewrite !forallb_forall. intros H x Hx. apply H. apply in_rev. exact Hx.
Qed.

Lemma trimEnd_before_space (s p : jsstring) :
  forallb is_trim_space p = true -> trimEnd (s ++ p) = trimEnd s.
Proof.
  intros H. unfold trimEnd. rewrite rev_app_distr.
  rewrite trimStart_after_space by (apply forallb_rev; exact H). reflexivity.
Qed.

(** Characters that [trim] strips do not matter around a text. *)
Lemma trim_padding (before text after : jsstring) :
  forallb is_trim_space before = true ->
  forallb is_trim_space after = true ->
  trim (before ++ text ++ after) = trim text.
Proof.
  intros Hb Ha. unfold trim.
  rewrite trimStart_after_space by exact Hb.
  rewrite trimStart_before_space by exact Ha.
  destruct (trimStart text) as [|c r] eqn:E; [reflexivity|].
  apply trimEnd_before_space. exact Ha.
Qed.

(** X1: the fighter's video is read first, and when its encoding fails the
    opponent's video is not read at all: the failed read is the only
    effect. *)
Theorem opponent_not_read_after_failure (w : Platform)
    (fighterName opponentName weightClass : jsstring)
    (fighterVideo opponentVideo : File) (e : JsThrown) :
  encoded w fighterVideo = Throw e ->
  effects (analyzeFights w fighterName opponentName weightClass
             fighterVideo opponentVideo)
  = [FileRead fighterVideo].
Proof.
  intros H. unfold effects. rewrite analyzeFights_run, H. reflexivity.
Qed.

(** X5: characters that [trim] strips around the provider's text, among them
    the byte-order mark and the no-break space that [JSON.parse] does not
    accept, do not change the result. *)
Theorem reply_padding_is_ignored (w : Platform)
    (fighterName opponentName weightClass : jsstring)
    (fighterVideo opponentVideo : File)
    (p1 p2 : Part) (response : GenerateContentResponse)
    (before body after : jsstring) (v : JSValue) :
  encoded w fighterVideo = Normal p1 ->
  encoded w opponentVideo = Normal p2 ->
  generateContent w {| apiKey := env_API_KEY w |}
    (request fighterName opponentName weightClass p1 p2)
  = Fulfilled response ->
  text response = before ++ body ++ after ->
  forallb is_trim_space before = true ->
  forallb is_trim_space after = true ->
  JSON_parse (trim body) = Some v ->
  outcome (analyzeFights w fighterName opponentName weightClass
             fighterVideo opponentVideo)
  = Normal v.
Proof.
  intros H1 H2 Hr Ht Hb Ha Hp.
  unfold outcome. rewrite analyzeFights_run, H1, H2.
  cbn zeta. rewrite Hr, Ht, (trim_padding _ _ _ Hb Ha), Hp. reflexivity.
Qed.

(** X6: [console.error] is called exactly when the provider answered with
    text that does not parse, and then once, as the last effect. *)
Theorem logs_exactly_on_unparsable_reply (w : Platform)
    (fighterName opponentName weightClass : jsstring)
    (fighterVideo opponentVideo : File) :
  (exists args,
      In (ConsoleError args)
        (effects (analyzeFights w fighterName opponentName weightClass
                    fighterVideo opponentVideo)))
  <-> (exists p1 p2 response,
          encoded w fighterVideo = Normal p1 /\
          encoded w opponentVideo = Normal p2 /\
          generateContent w {| apiKey := env_API_KEY w |}
            (request fighterName opponentName weightClass p1 p2)
          = Fulfilled response /\
          JSON_parse (trim (text response)) = None).
Proof.
  unfold effects. rewrite analyzeFights_run.
  destruct (encoded w fighterVideo) as [p1|e|].
  2,3: split; [intros [args [H|[]]]; discriminate H
              | intros (q1 & q2 & r & H & _); discriminate H].
  destruct (encoded w opponentVideo) as [p2|e|].
  2,3: split; [intros [args [H|[H|[]]]]; discriminate H
              | intros (q1 & q2 & r & _ & H & _); discriminate H].
  cbn zeta.
  destruct (generateContent w _ _) as [|response|e] eqn:Hr.
  1,3: split; [intros [args [H|[H|[H|[]]]]]; discriminate H
              | intros (q1 & q2 & r & Hq1 & Hq2 & H & _);
                inversion Hq1; inversion Hq2; subst; rewrite Hr in H;
                discriminate H].
  destruct (JSON_parse (trim (text response))) eqn:Hp; cbn [snd app]; split.
  - intros [args [H|[H|[H|[]]]]]; discriminate H.
  - intros (q1 & q2 & r & Hq1 & Hq2 & H & Hn).
    inversion Hq1; inversion Hq2; subst. rewrite Hr in H.
    inversion H; subst. congruence.
  - intros _. exists p1, p2, response. repeat split; assumption.
  - intros _. eexists. right. right. right. left. reflexivity.
Qed.

(** X7: when both files are read as the File API prescribes and their
    declared types hold no comma, the third and the fifth part of every
    request carry, in this order, data that decodes to the bytes of the
    fighter's video and of the opponent's video. *)
Theorem request_carries_both_videos (w : Platform)
    (fighterName opponentName weightClass : jsstring)
    (fighterVideo opponentVideo : File) (params : GenerateContentParameters) :
  readAsDataURL w fighterVideo = read_ok fighterVideo ->
  readAsDataURL w opponentVideo = read_ok opponentVideo ->
  includes (js ",") (FileApi.type fighterVideo) = false ->
  includes (js ",") (FileApi.type opponentVideo) = false ->
  In params (provider_calls
               (effects (analyzeFights w fighterName opponentName weightClass
                           fighterVideo opponentVideo))) ->
  exists d1 d2,
    nth_error (parts (contents params)) 2
    = Some (InlinePart {| mimeType := FileApi.type fighterVideo;
                          data := Some d1 |}) /\
    Base64.decode d1 = Some (bytes fighterVideo) /\
    nth_error (parts (contents params)) 4
    = Some (InlinePart {| mimeType := FileApi.type opponentVideo;
                          data := Some d2 |}) /\
    Base64.decode d2 = Some (bytes opponentVideo).
Proof.
  intros Hr1 Hr2 Ht1 Ht2 H.
  apply provider_call_is_request in H. destruct H as (p1 & p2 & H1 & H2 & ->).
  destruct (round_trip_without_comma w fighterVideo Hr1 Ht1) as (d1 & E1 & D1).
  destruct (round_trip_without_comma w opponentVideo Hr2 Ht2) as (d2 & E2 & D2).
  rewrite E1 in H1. rewrite E2 in H2. inversion H1; inversion H2; subst.
  exists d1, d2. repeat split; assumption || reflexivity.
Qed.

Lemma opponent_not_read_after_failure_witness :
  encoded quicktime_unreadable mov_clip = Throw (EventValue read_error) /\
  effects (analyzeFights quicktime_unreadable jones smith heavyweight
             mov_clip mp4_clip)
  = [FileRead mov_clip].
Proof.
  split; [vm_compute; reflexivity|].
  apply (opponent_not_read_after_failure quicktime_unreadable
           jones smith heavyweight mov_clip mp4_clip (EventValue read_error)).
  vm_compute. reflexivity.
Defined.

Lemma read_rejection_reason_witness :
  encoded error_with_text mp4_clip = Throw (EventValue read_error) /\
  encoded buffer_reader mp4_clip
  = Throw (new_Error (js "Failed to read file as base64 string.")).
Proof.
  split.
  - apply (proj1 (read_rejection_reason error_with_text mp4_clip)).
    reflexivity.
  - apply (proj2 (read_rejection_reason buffer_reader mp4_clip)).
    + reflexivity.
    + intros s H. vm_compute in H. discriminate H.
Defined.

Lemma encoder_round_trip_witness :
  exists d,
    encoded (stub Pending) mp4_clip
    = Normal (InlinePart {| mimeType := FileApi.type mp4_clip; data := Some d |}) /\
    Base64.decode d = Some (bytes mp4_clip).
Proof.
  apply (encoder_round_trip (stub Pending) mp4_clip); reflexivity.
Defined.

Lemma comma_type_payload_ignores_content_witness :
  bytes webm_clip <> bytes other_webm_clip /\
  encoded (stub Pending) webm_clip = encoded (stub Pending) other_webm_clip.
Proof.
  split; [discriminate|].
  apply (comma_type_payload_ignores_content (stub Pending)
           webm_clip other_webm_clip); reflexivity.
Defined.

Lemma reply_padding_is_ignored_witness :
  JSON_parse padded_reply = None /\
  exists v,
    JSON_parse (trim conforming_reply) = Some v /\
    outcome (analyzeFights (replying padded_reply)
               jones smith heavyweight mp4_clip mov_clip)
    = Normal v.
Proof.
  split; [vm_compute; reflexivity|].
  eexists. split; [vm_compute; reflexivity|].
  apply (reply_padding_is_ignored (replying padded_reply)
           jones smith heavyweight mp4_clip mov_clip
           (payload_of mp4_clip) (payload_of mov_clip)
           {| text := padded_reply |}
           byte_order_mark conforming_reply trailing_space);
    vm_compute; reflexivity.
Defined.

Lemma request_carries_both_videos_witness :
  let params := request jones smith heavyweight
                  (payload_of mp4_clip) (payload_of mov_clip) in
  In params (provider_calls
               (effects (analyzeFights (replying conforming_reply)
                           jones smith heavyweight mp4_clip mov_clip))) /\
  exists d1 d2,
    nth_error (parts (contents params)) 2
    = Some (InlinePart {| mimeType := FileApi.type mp4_clip;
                          data := Some d1 |}) /\
    Base64.decode d1 = Some (bytes mp4_clip) /\
    nth_error (parts (contents params)) 4
    = Some (InlinePart {| mimeType := FileApi.type mov_clip;
                          data := Some d2 |}) /\
    Base64.decode d2 = Some (bytes mov_clip).
Proof.
  cbn zeta.
  assert (In (request jones smith heavyweight
                (payload_of mp4_clip) (payload_of mov_clip))
             (provider_calls
                (effects (analyzeFights (replying conforming_reply)
                            jones smith heavyweight mp4_clip mov_clip)))) as H.
  { vm_compute. left. reflexivity. }
  split; [exact H|].
  apply (request_carries_both_videos (replying conforming_reply)
           jones smith heavyweight mp4_clip mov_clip _); try reflexivity.
  exact H.
Defined.

(* ================================================================== *)
(** * The results view *)
(* ================================================================== *)

Import React Components.


Lemma read_property_readable (eng : Engine) (base : option JSValue) (key : string) :
  read_property eng base key
  = if readable base then Normal (property base key)
    else Throw (TypeError eng base key).
Proof. destruct base as [[]|]; reflexivity. Qed.

Lemma list_items_array (eng : Engine) (list : option JSValue) :
  if is_array list
  then exists items, list_items eng list = Normal items
  else list_items eng list = Throw (TypeError eng list "map").
Proof. destruct list as [[]|]; cbn; eauto. Qed.

Ltac step_items eng l :=
  let H := fresh "H" in
  pose proof (list_items_array eng l) as H;
  destruct (is_array l);
  [ let items := fresh "items" in destruct H as [items H]; rewrite H
  | rewrite H ];
  cbn [and_then andb].

Lemma head_to_head_children_ready (eng : Engine) (h : option JSValue) :
  if readable h
  then exists ns, head_to_head_children eng h = Normal ns
  else exists base key, head_to_head_children eng h = Throw (TypeError eng base key).
Proof.
  unfold head_to_head_children. rewrite !read_property_readable.
  destruct (readable h); cbn [and_then]; eauto.
Qed.

Lemma profile_children_ready (eng : Engine) (a : option JSValue) :
  if profile_ready a
  then exists ns, profile_children eng a = Normal ns
  else exists base key, profile_children eng a = Throw (TypeError eng base key).
Proof.
  unfold profile_children, profile_ready. rewrite !read_property_readable.
  destruct (readable a); cbn [and_then andb]; [|eauto].
  step_items eng (property a "strengths"); [|eauto].
  step_items eng (property a "weaknesses"); [|eauto].
  step_items eng (property a "fightingHabits"); [|eauto].
  step_items eng (property a "fightingPattern"); eauto.
Qed.

Lemma game_plan_children_ready (eng : Engine) (g : option JSValue) :
  if game_plan_ready g
  then exists ns, game_plan_children eng g = Normal ns
  else exists base key, game_plan_children eng g = Throw (TypeError eng base key).
Proof.
  unfold game_plan_children, game_plan_ready. rewrite !read_property_readable.
  destruct (readable g); cbn [and_then andb]; [|eauto].
  step_items eng (property g "keyTactics"); [|eauto].
  step_items eng (property g "drills"); eauto.
Qed.

Lemma truthy_is_readable (v : option JSValue) :
  ToBoolean v = true -> readable v = true.
Proof. destruct v as [[]|]; cbn; congruence. Qed.

Lemma result_view_ready (eng : Engine) (v : option JSValue)
    (fighterName opponentName : jsstring) :
  ToBoolean v = true ->
  if view_ready v
  then exists node, result_view eng v fighterName opponentName = Normal node
  else exists base key,
      result_view eng v fighterName opponentName = Throw (TypeError eng base key).
Proof.
  intros Ht. apply truthy_is_readable in Ht.
  unfold result_view, view_ready. rewrite !read_property_readable, Ht.
  cbn [and_then].
  pose proof (head_to_head_children_ready eng (property v "headToHead")) as Hh.
  destruct (readable (property v "headToHead")); cbn [andb].
  2: { destruct Hh as (b & k & ->). cbn [and_then]. eauto. }
  destruct Hh as [hs ->]. cbn [and_then].
  pose proof (profile_children_ready eng (property v "fighterAnalysis")) as Hf.
  destruct (profile_ready (property v "fighterAnalysis")); cbn [andb].
  2: { destruct Hf as (b & k & ->). cbn [and_then]. eauto. }
  destruct Hf as [fs ->]. cbn [and_then].
  pose proof (profile_children_ready eng (property v "opponentAnalysis")) as Ho.
  destruct (profile_ready (property v "opponentAnalysis")); cbn [andb].
  2: { destruct Ho as (b & k & ->). cbn [and_then]. eauto. }
  destruct Ho as [os ->]. cbn [and_then].
  pose proof (game_plan_children_ready eng (property v "recommendedGamePlan")) as Hg.
  destruct (game_plan_ready (property v "recommendedGamePlan")).
  2: { destruct Hg as (b & k & ->). cbn [and_then]. eauto. }
  destruct Hg as [gs ->]. cbn [and_then]. eauto.
Qed.

Lemma ResultsSection_by_content (eng : Engine) (props : ResultsSectionProps) :
  ResultsSection eng props
  = match renderContent eng props with
    | Normal content =>
        Normal (Host "div" [className "bg-white rounded-lg p-6 shadow-md h-full"]
                  [content])
    | Throw e => Throw e
    | Suspended => Suspended
    end.
Proof. reflexivity. Qed.

Lemma results_branch (eng : Engine) (props : ResultsSectionProps) :
  isLoading props = false ->
  (Components.error props = None \/ Components.error props = Some []) ->
  ToBoolean (analysisResult props) = true ->
  renderContent eng props
  = result_view eng (analysisResult props) (fighterName props)
      (opponentName props).
Proof.
  intros Hl He Ht. unfold renderContent. rewrite Hl, Ht.
  destruct He as [-> | ->]; reflexivity.
Qed.

Lemma ready_result_renders (eng : Engine) (props : ResultsSectionProps) :
  isLoading props = false ->
  (Components.error props = None \/ Components.error props = Some []) ->
  ToBoolean (analysisResult props) = true ->
  view_ready (analysisResult props) = true ->
  exists node, ResultsSection eng props = Normal node.
Proof.
  intros Hl He Ht Hr.
  rewrite ResultsSection_by_content, (results_branch eng props Hl He Ht).
  pose proof (result_view_ready eng (analysisResult props)
                (fighterName props) (opponentName props) Ht) as H.
  rewrite Hr in H. destruct H as [node ->]. eauto.
Qed.

(** X8: the view throws only in its results branch, on a value that is not
    ready for it, and then a [TypeError]. *)
Theorem view_fails_only_on_results (eng : Engine) (props : ResultsSectionProps)
    (e : JsThrown) :
  ResultsSection eng props = Throw e ->
  isLoading props = false /\
  (Components.error props = None \/ Components.error props = Some []) /\
  ToBoolean (analysisResult props) = true /\
  view_ready (analysisResult props) = false /\
  exists base key, e = TypeError eng base key.
Proof.
  rewrite ResultsSection_by_content. unfold renderContent.
  destruct (isLoading props); [discriminate|].
  destruct (Components.error props) as [[|c m]|] eqn:Ee; try discriminate.
  all: destruct (ToBoolean (analysisResult props)) eqn:Et; cbn [negb];
    try discriminate.
  all: pose proof (result_view_ready eng (analysisResult props)
                     (fighterName props) (opponentName props) Et) as Hr.
  all: destruct (view_ready (analysisResult props)).
  all: try (destruct Hr as [node ->]; discriminate).
  all: destruct Hr as (base & key & ->); intros H; inversion H; subst.
  all: repeat split; eauto.
Qed.

(** X9: with nothing loading and no error to show, the view of a truthy
    result evaluates to an element, without throwing, exactly when the value
    is ready: its four substructures are neither missing nor null and its
    ten list properties are arrays.  The scalar properties may be
    missing. *)
Theorem view_renders_iff_ready (eng : Engine) (props : ResultsSectionProps) :
  isLoading props = false ->
  (Components.error props = None \/ Components.error props = Some []) ->
  ToBoolean (analysisResult props) = true ->
  ((exists node, ResultsSection eng props = Normal node)
   <-> view_ready (analysisResult props) = true).
Proof.
  intros Hl He Ht.
  rewrite ResultsSection_by_content, (results_branch eng props Hl He Ht).
  pose proof (result_view_ready eng (analysisResult props)
                (fighterName props) (opponentName props) Ht) as Hr.
  destruct (view_ready (analysisResult props)).
  - destruct Hr as [node ->]. split; eauto.
  - destruct Hr as (base & key & ->). split; [|discriminate].
    intros [node H]. discriminate H.
Qed.

(** X10: while loading, and when an error is shown, the view is the same
    whatever the result and the names are. *)
Theorem view_ignores_result_while_loading_or_failed
    (eng eng' : Engine) (props props' : ResultsSectionProps) :
  isLoading props = isLoading props' ->
  (isLoading props = true \/
   exists c message,
     Components.error props = Some (c :: message) /\
     Components.error props' = Some (c :: message)) ->
  ResultsSection eng props = ResultsSection eng' props' /\
  exists node, ResultsSection eng props = Normal node.
Proof.
  intros Hl H. rewrite !ResultsSection_by_content. unfold renderContent.
  rewrite <- Hl.
  destruct (isLoading props).
  - split; [reflexivity|eauto].
  - destruct H as [H|(c & m & -> & ->)]; [discriminate|].
    split; [reflexivity|eauto].
Qed.

(** X11: with nothing loading, an absent or empty error and a result that
    is null, false, zero or the empty string, the view is the placeholder
    that invites an analysis. *)
Theorem view_placeholder_for_falsy_result (eng : Engine)
    (props : ResultsSectionProps) :
  isLoading props = false ->
  (Components.error props = None \/ Components.error props = Some []) ->
  ToBoolean (analysisResult props) = false ->
  ResultsSection eng props
  = Normal (Host "div" [className "bg-white rounded-lg p-6 shadow-md h-full"]
              [empty_view]).
Proof.
  intros Hl He Ht. rewrite ResultsSection_by_content. unfold renderContent.
  rewrite Hl, Ht. destruct He as [-> | ->]; reflexivity.
Qed.

(** X12: the view of an empty fighter name is the view of the name
    [Fighter], and that of an empty opponent name the view of the name
    [Opponent]. *)
Theorem empty_names_render_as_placeholders (eng : Engine) (loading : bool)
    (result : option JSValue) (err : option jsstring) (name : jsstring) :
  ResultsSection eng
    {| isLoading := loading; analysisResult := result; Components.error := err;
       fighterName := []; opponentName := name |}
  = ResultsSection eng
      {| isLoading := loading; analysisResult := result; Components.error := err;
         fighterName := js "Fighter"; opponentName := name |} /\
  ResultsSection eng
    {| isLoading := loading; analysisResult := result; Components.error := err;
       fighterName := name; opponentName := [] |}
  = ResultsSection eng
      {| isLoading := loading; analysisResult := result; Components.error := err;
         fighterName := name; opponentName := js "Opponent" |}.
Proof. split; reflexivity. Qed.

Lemma has_property (key : string) (check : JSValue -> bool) (v : JSValue) :
  has key check v = true ->
  exists x, property (Some v) key = Some x /\ check x = true.
Proof.
  unfold has, get, property.
  destruct v; try discriminate.
  destruct (get_member (js key) members) as [x|]; [|discriminate].
  intros H. exists x. split; [reflexivity|exact H].
Qed.

Lemma has_string_array (key : string) (v : JSValue) :
  has key is_string_array v = true -> is_array (property (Some v) key) = true.
Proof.
  intros H. apply has_property in H. destruct H as (x & -> & Hx).
  destruct x; try discriminate. reflexivity.
Qed.

Lemma conforming_profile_ready (v : JSValue) (key : string) :
  has key conforms_FighterProfile v = true ->
  profile_ready (property (Some v) key) = true.
Proof.
  intros H. apply has_property in H. destruct H as (x & -> & Hx).
  unfold conforms_FighterProfile in Hx.
  repeat (apply andb_prop in Hx; destruct Hx as [Hx ?]).
  unfold profile_ready.
  rewrite !has_string_array by assumption.
  destruct x; try discriminate; reflexivity.
Qed.

(** X13: for a result with every field of the data model in place, the
    view always evaluates to an element, without throwing. *)
Theorem conforming_result_renders (eng : Engine) (props : ResultsSectionProps)
    (v : JSValue) :
  isLoading props = false ->
  (Components.error props = None \/ Components.error props = Some []) ->
  analysisResult props = Some v ->
  conforms_AnalysisResult v = true ->
  exists node, ResultsSection eng props = Normal node.
Proof.
  intros Hl He Hv Hc.
  assert (ToBoolean (Some v) = true /\ view_ready (Some v) = true) as [Ht Hr].
  { unfold conforms_AnalysisResult in Hc.
    repeat (apply andb_prop in Hc; destruct Hc as [Hc ?]).
    split.
    - destruct v; try discriminate; reflexivity.
    - unfold view_ready.
      rewrite !conforming_profile_ready by assumption.
      match goal with
      | H : has "headToHead" _ _ = true |- _ =>
          apply has_property in H; destruct H as (h & -> & Hh)
      end.
      match goal with
      | H : has "recommendedGamePlan" _ _ = true |- _ =>
          apply has_property in H; destruct H as (g & -> & Hg)
      end.
      unfold conforms_GamePlan in Hg.
      repeat (apply andb_prop in Hg; destruct Hg as [Hg ?]).
      unfold game_plan_ready. rewrite !has_string_array by assumption.
      unfold conforms_HeadToHead in Hh.
      destruct h; try discriminate; destruct g; try discriminate; reflexivity. }
  apply ready_result_renders; try assumption; rewrite Hv; assumption.
Qed.

Lemma map_indexed_nth (A B : Type) (f : A -> nat -> B) (l : list A)
    (start i : nat) (x : A) :
  nth_error l i = Some x ->
  nth_error (map_indexed f start l) i = Some (f x (start + i)).
Proof.
  revert start i. induction l as [|y r IH]; intros start [|i] H;
    cbn [nth_error map_indexed] in *; try discriminate.
  - inversion H; subst. rewrite Nat.add_0_r. reflexivity.
  - rewrite (IH (S start) i H). f_equal. f_equal. lia.
Qed.

Lemma map_indexed_length (A B : Type) (f : A -> nat -> B) (l : list A)
    (start : nat) :
  List.length (map_indexed f start l) = List.length l.
Proof.
  revert start. induction l as [|y r IH]; intros start;
    cbn [map_indexed List.length]; [reflexivity|]. rewrite IH. reflexivity.
Qed.

(** X14: the [map] call over an array of the result yields its list items
    item for item and in order: as many as elements, the one at position [i]
    holding the element at position [i] and keyed by [i]. *)
Theorem list_items_follow_the_array (eng : Engine) (elements : list JSValue) :
  exists nodes,
    list_items eng (Some (JArray elements)) = Normal (Items nodes) /\
    List.length nodes = List.length elements /\
    forall i x,
      nth_error elements i = Some x ->
      nth_error nodes i
      = Some (Host "li" [("key"%string, PIndex i)] [Expr (Some x)]).
Proof.
  eexists. split; [reflexivity|]. split.
  - apply map_indexed_length.
  - intros i x H.
    rewrite (map_indexed_nth _ _ _ elements 0 i x H). reflexivity.
Qed.

Lemma view_fails_only_on_results_witness :
  exists e,
    ResultsSection engine (showing (JSON_parse reply_without_game_plan))
    = Throw e /\
    isLoading (showing (JSON_parse reply_without_game_plan)) = false /\
    (Components.error (showing (JSON_parse reply_without_game_plan)) = None \/
     Components.error (showing (JSON_parse reply_without_game_plan)) = Some []) /\
    ToBoolean (analysisResult (showing (JSON_parse reply_without_game_plan)))
    = true /\
    view_ready (analysisResult (showing (JSON_parse reply_without_game_plan)))
    = false /\
    exists base key, e = TypeError engine base key.
Proof.
  eexists. split; [vm_compute; reflexivity|].
  apply (view_fails_only_on_results engine
           (showing (JSON_parse reply_without_game_plan))).
  vm_compute. reflexivity.
Defined.

Lemma view_renders_iff_ready_witness :
  view_ready (JSON_parse reply_without_confidence) = true /\
  exists node,
    ResultsSection engine (showing (JSON_parse reply_without_confidence))
    = Normal node.
Proof.
  split; [vm_compute; reflexivity|].
  apply (view_renders_iff_ready engine
           (showing (JSON_parse reply_without_confidence)));
    try (vm_compute; reflexivity).
  left. reflexivity.
Defined.

Lemma view_ignores_result_while_loading_or_failed_witness :
  ResultsSection engine failed_props
  = ResultsSection engine failed_props_without_result /\
  exists node, ResultsSection engine failed_props = Normal node.
Proof.
  apply (view_ignores_result_while_loading_or_failed engine engine
           failed_props failed_props_without_result).
  - reflexivity.
  - right. eexists. eexists. split; vm_compute; reflexivity.
Defined.

Lemma view_placeholder_for_falsy_result_witness :
  ResultsSection engine (showing (JSON_parse (js "null")))
  = Normal (Host "div" [className "bg-white rounded-lg p-6 shadow-md h-full"]
              [empty_view]) /\
  ResultsSection engine (showing (JSON_parse (js "1e-400")))
  = Normal (Host "div" [className "bg-white rounded-lg p-6 shadow-md h-full"]
              [empty_view]).
Proof.
  split.
  - apply (view_placeholder_for_falsy_result engine
             (showing (JSON_parse (js "null"))));
      try (vm_compute; reflexivity).
    left. reflexivity.
  - apply (view_placeholder_for_falsy_result engine
             (showing (JSON_parse (js "1e-400"))));
      try (vm_compute; reflexivity).
    left. reflexivity.
Defined.

Lemma conforming_result_renders_witness :
  exists node,
    ResultsSection engine (showing (JSON_parse (trim conforming_reply)))
    = Normal node.
Proof.
  assert (exists v, JSON_parse (trim conforming_reply) = Some v /\
                    conforms_AnalysisResult v = true) as (v & Hv & Hc)
    by (eexists; split; vm_compute; reflexivity).
  apply (conforming_result_renders engine
           (showing (JSON_parse (trim conforming_reply))) v);
    [reflexivity | left; reflexivity | exact Hv | exact Hc].
Defined.
